(** * ECS status utility: pagination, batched detail fetch, status counts

    A shallow embedding of the data-fetching functions of
    [src/aws/ecs/ecs-status.py] ([get_clusters], [get_services],
    [get_tasks], [get_task_details], [get_service_details],
    [get_cluster_details]), of the status counting loop of
    [show_cluster_summary] and of [truncate_string], together with the
    properties stated about them.

    The boto3 client is the only stateful object these functions touch.
    It is modelled as a scripted double: a queue of outcomes still to be
    served and a log of the calls received so far.  Exceptions raised by
    the client travel through an error monad, exactly as a Python
    exception unwinds a function that has no [try]. *)

From Stdlib Require Import String Ascii List Arith ZArith Lia.
From Stdlib Require Import DecimalString.
From stdpp Require Import gmap strings list fin_maps.

Import ListNotations.
Local Open Scope string_scope.
Local Open Scope list_scope.
Local Open Scope nat_scope.

(* ===================================================================== *)
(** * Python primitives *)
(* ===================================================================== *)

Module Py.

(** [bool(s)] for a [str]: only the empty string is false. *)
Definition str_truthy (s : string) : bool := negb (String.eqb s "").

(** [bool(x)] for a variable that holds [None] or a [str]. *)
Definition opt_truthy (x : option string) : bool :=
  match x with
  | None => false
  | Some s => str_truthy s
  end.

(** [bool(l)] for a list: only the empty list is false. *)
Definition list_truthy {A : Type} (l : list A) : bool :=
  match l with
  | [] => false
  | _ :: _ => true
  end.

(** [range(start, stop, step)] for a positive step, by iteration:
    yield [i] while [i < stop], then advance by [step].  [fuel] bounds
    the number of iterations; [stop - start] is always enough. *)
Fixpoint range_from (fuel i stop step : nat) : list nat :=
  match fuel with
  | O => []
  | S fuel' =>
      if i <? stop then i :: range_from fuel' (i + step) stop step else []
  end.

Definition range (start stop step : nat) : list nat :=
  range_from (stop - start) start stop step.

(** [l[i:j]] for non-negative [i] and [j]: out-of-range bounds are
    clipped, never an error. *)
Definition slice {A : Type} (l : list A) (i j : nat) : list A :=
  firstn (j - i) (skipn i l).

(** [s[:k]] on a [str] given as the sequence of its code points, for any
    integer [k]: a negative [k] counts from the end of the string, and a
    bound out of range is clipped. *)
Definition str_upto {A : Type} (s : list A) (k : Z) : list A :=
  if (k <? 0)%Z
  then firstn (Z.to_nat (Z.of_nat (length s) + k)) s
  else firstn (Z.to_nat k) s.

End Py.

(* ===================================================================== *)
(** * The ECS client *)
(* ===================================================================== *)

(** Exceptions a client call can raise. *)
Inductive exn : Type :=
| ClientError (code message : string)
| EndpointConnectionError (endpoint_url : string)
| StopIteration.

(** A call received by the client, with its keyword arguments.  An
    optional keyword that the caller leaves out is [None]. *)
Inductive call : Type :=
| list_clusters (nextToken : option string)
| list_services (cluster : string) (nextToken : option string)
| list_tasks (cluster : string) (serviceName : option string)
             (nextToken : option string)
| describe_tasks (cluster : string) (tasks : list string)
| describe_services (cluster : string) (services : list string)
| describe_clusters (clusters : list string) (include : list string).

(** Response dictionaries, one shape per operation.  A key that the
    service may leave out is an [option]. *)
Module ListClusters.
Record response : Type :=
  { clusterArns : list string; nextToken : option string }.
End ListClusters.

Module ListServices.
Record response : Type :=
  { serviceArns : list string; nextToken : option string }.
End ListServices.

Module ListTasks.
Record response : Type :=
  { taskArns : list string; nextToken : option string }.
End ListTasks.

(** Detail records: the fields the summaries read. *)
Record Task : Type := { taskArn : string; lastStatus : string }.
Record Service : Type := { serviceArn : string; serviceName : string }.
Record Cluster : Type := { clusterArn : string; clusterName : string }.

Module DescribeTasks.
Record response : Type := { tasks : list Task }.
End DescribeTasks.

Module DescribeServices.
Record response : Type := { services : list Service }.
End DescribeServices.

Module DescribeClusters.
Record response : Type := { clusters : list Cluster }.
End DescribeClusters.

(** What a run of a function ends in.  [OutOfFuel] is not a Python
    outcome: it marks a [while True] loop that was cut by the bound put
    on its iterations. *)
Inductive outcome (A : Type) : Type :=
| Return (a : A)
| Raise (e : exn)
| OutOfFuel.

Arguments Return {A} a.
Arguments Raise {A} e.
Arguments OutOfFuel {A}.

(** The state of the client: the outcomes it will serve, in order, for
    the calls to come, and the calls it has received, oldest first. *)
Record World (R : Type) : Type :=
  { script : list (exn + R); calls : list call }.

Arguments script {R} _.
Arguments calls {R} _.

(** Computations that talk to a client whose responses have type [R]. *)
Definition M (R A : Type) : Type := World R -> outcome A * World R.

Definition ret {R A : Type} (a : A) : M R A := fun w => (Return a, w).

Definition bind {R A B : Type} (m : M R A) (k : A -> M R B) : M R B :=
  fun w =>
    match m w with
    | (Return a, w') => k a w'
    | (Raise e, w') => (Raise e, w')
    | (OutOfFuel, w') => (OutOfFuel, w')
    end.

Definition out_of_fuel {R A : Type} : M R A := fun w => (OutOfFuel, w).

Notation "x <- c1 ;; c2" := (bind c1 (fun x => c2))
  (at level 100, c1 at next level, right associativity).

(** One client call: log it, then serve the next scripted outcome.  A
    double whose script is used up raises [StopIteration]. *)
Definition invoke {R : Type} (c : call) : M R R :=
  fun w =>
    match script w with
    | [] => (Raise StopIteration, {| script := []; calls := calls w ++ [c] |})
    | inl e :: rest => (Raise e, {| script := rest; calls := calls w ++ [c] |})
    | inr r :: rest => (Return r, {| script := rest; calls := calls w ++ [c] |})
    end.

(* ===================================================================== *)
(** * The functions of ecs-status.py *)
(* ===================================================================== *)

(** A [str] that is measured and cut is the list of its code points:
    [len] is the length of that list and a slice is a slice of it,
    whatever the characters are. *)
Definition code_point : Type := N.
Definition text : Type := list code_point.

(** The code points of a literal written with ASCII characters. *)
Definition text_of (s : string) : text :=
  map N_of_ascii (list_ascii_of_string s).

(** ['...'], three times the code point of the full stop. *)
Definition ellipsis : text := [46; 46; 46]%N.

(** [truncate_string(s, max_length=50)] *)
Definition truncate_string (s : text) (max_length : Z) : text :=
  if (Z.of_nat (length s) <=? max_length)%Z
  then s
  else Py.str_upto s (max_length - 3) ++ ellipsis.

(** [get_clusters(ecs_client)]: the body of [while True], with the local
    variables [clusters] and [next_token] as arguments. *)
Fixpoint get_clusters_loop (fuel : nat) (clusters : list string)
    (next_token : option string) : M ListClusters.response (list string) :=
  match fuel with
  | O => out_of_fuel
  | S fuel' =>
      response <- (if Py.opt_truthy next_token
                   then invoke (list_clusters next_token)
                   else invoke (list_clusters None)) ;;
      let clusters := clusters ++ ListClusters.clusterArns response in
      match ListClusters.nextToken response with
      | Some t => get_clusters_loop fuel' clusters (Some t)
      | None => ret clusters
      end
  end.

Definition get_clusters (fuel : nat) : M ListClusters.response (list string) :=
  get_clusters_loop fuel [] None.

(** [get_services(ecs_client, cluster_arn)] *)
Fixpoint get_services_loop (fuel : nat) (cluster_arn : string)
    (services : list string) (next_token : option string)
    : M ListServices.response (list string) :=
  match fuel with
  | O => out_of_fuel
  | S fuel' =>
      response <- (if Py.opt_truthy next_token
                   then invoke (list_services cluster_arn next_token)
                   else invoke (list_services cluster_arn None)) ;;
      let services := services ++ ListServices.serviceArns response in
      match ListServices.nextToken response with
      | Some t => get_services_loop fuel' cluster_arn services (Some t)
      | None => ret services
      end
  end.

Definition get_services (fuel : nat) (cluster_arn : string)
    : M ListServices.response (list string) :=
  get_services_loop fuel cluster_arn [] None.

(** [get_tasks(ecs_client, cluster_arn, service_arn=None)] *)
Fixpoint get_tasks_loop (fuel : nat) (cluster_arn : string)
    (service_arn : option string) (tasks : list string)
    (next_token : option string) : M ListTasks.response (list string) :=
  match fuel with
  | O => out_of_fuel
  | S fuel' =>
      response <- (if Py.opt_truthy service_arn
                   then if Py.opt_truthy next_token
                        then invoke (list_tasks cluster_arn service_arn next_token)
                        else invoke (list_tasks cluster_arn service_arn None)
                   else if Py.opt_truthy next_token
                        then invoke (list_tasks cluster_arn None next_token)
                        else invoke (list_tasks cluster_arn None None)) ;;
      let tasks := tasks ++ ListTasks.taskArns response in
      match ListTasks.nextToken response with
      | Some t => get_tasks_loop fuel' cluster_arn service_arn tasks (Some t)
      | None => ret tasks
      end
  end.

Definition get_tasks (fuel : nat) (cluster_arn : string)
    (service_arn : option string) : M ListTasks.response (list string) :=
  get_tasks_loop fuel cluster_arn service_arn [] None.

(** [get_task_details(ecs_client, cluster_arn, task_arns)]: first the
    [for chunk in task_chunks] loop, with [all_tasks] as an argument. *)
Fixpoint get_task_details_for (cluster_arn : string)
    (task_chunks : list (list string)) (all_tasks : list Task)
    : M DescribeTasks.response (list Task) :=
  match task_chunks with
  | [] => ret all_tasks
  | chunk :: task_chunks' =>
      response <- invoke (describe_tasks cluster_arn chunk) ;;
      get_task_details_for cluster_arn task_chunks'
        (all_tasks ++ DescribeTasks.tasks response)
  end.

Definition get_task_details (cluster_arn : string) (task_arns : list string)
    : M DescribeTasks.response (list Task) :=
  if negb (Py.list_truthy task_arns) then ret []
  else
    let task_chunks :=
      map (fun i => Py.slice task_arns i (i + 100))
          (Py.range 0 (length task_arns) 100) in
    get_task_details_for cluster_arn task_chunks [].

(** [get_service_details(ecs_client, cluster_arn, service_arns)] *)
Fixpoint get_service_details_for (cluster_arn : string)
    (service_chunks : list (list string)) (all_services : list Service)
    : M DescribeServices.response (list Service) :=
  match service_chunks with
  | [] => ret all_services
  | chunk :: service_chunks' =>
      response <- invoke (describe_services cluster_arn chunk) ;;
      get_service_details_for cluster_arn service_chunks'
        (all_services ++ DescribeServices.services response)
  end.

Definition get_service_details (cluster_arn : string)
    (service_arns : list string)
    : M DescribeServices.response (list Service) :=
  if negb (Py.list_truthy service_arns) then ret []
  else
    let service_chunks :=
      map (fun i => Py.slice service_arns i (i + 10))
          (Py.range 0 (length service_arns) 10) in
    get_service_details_for cluster_arn service_chunks [].

(** [get_cluster_details(ecs_client, cluster_arns)] *)
Definition get_cluster_details (cluster_arns : list string)
    : M DescribeClusters.response (list Cluster) :=
  if negb (Py.list_truthy cluster_arns) then ret []
  else
    response <- invoke (describe_clusters cluster_arns ["STATISTICS"]) ;;
    ret (DescribeClusters.clusters response).

(** The status counting loop of [show_cluster_summary]:
    [status_count = defaultdict(int)], then
    [status_count[task['lastStatus']] += 1] for each task.  Reading a key
    that is absent from a [defaultdict(int)] gives 0. *)
Definition status_count_step (status_count : gmap string nat) (task : Task)
    : gmap string nat :=
  <[lastStatus task := default 0 (status_count !! lastStatus task) + 1]>
    status_count.

Definition status_count_of (task_details : list Task) : gmap string nat :=
  fold_left status_count_step task_details ∅.

(* ===================================================================== *)
(** * The two schemes behind the six functions *)
(* ===================================================================== *)

(** The three listing functions run one loop, and the two batched detail
    functions run one loop; each is proved equal to an instance of the
    schemes below, and the schemes carry the proofs. *)

(** The [nextToken] keyword that a listing call carries when the local
    variable [next_token] holds [x]: [if next_token:] guards it. *)
Definition token_kwarg (x : option string) : option string :=
  if Py.opt_truthy x then x else None.

Section Schemes.

Context {R D : Type}.

(** Listing: [request] builds the call from the [nextToken] keyword,
    [items] and [token] read the two keys of the response. *)
Variable request : option string -> call.
Variable items : R -> list string.
Variable token : R -> option string.

Fixpoint paginated_loop (fuel : nat) (acc : list string)
    (next_token : option string) : M R (list string) :=
  match fuel with
  | O => out_of_fuel
  | S fuel' =>
      response <- invoke (request (token_kwarg next_token)) ;;
      match token response with
      | Some t => paginated_loop fuel' (acc ++ items response) (Some t)
      | None => ret (acc ++ items response)
      end
  end.

(** The keywords sent while the pages [pre] are consumed, starting with
    [next_token = x]: one for the first call, one after each page. *)
Definition sent_tokens (x : option string) (pre : list R)
    : list (option string) :=
  token_kwarg x :: map (fun r => token_kwarg (token r)) pre.

(** Batched detail fetch: [fetch] builds the call from a chunk,
    [records] reads the detail list of the response. *)
Variable fetch : list string -> call.
Variable records : R -> list D.

Fixpoint batched_for (chunks : list (list string)) (acc : list D)
    : M R (list D) :=
  match chunks with
  | [] => ret acc
  | chunk :: chunks' =>
      response <- invoke (fetch chunk) ;;
      batched_for chunks' (acc ++ records response)
  end.

End Schemes.

(** The chunks of the list comprehension
    [[l[i:i+B] for i in range(0, len(l), B)]]. *)
Definition chunks_of {A : Type} (B : nat) (l : list A) : list (list A) :=
  map (fun i => Py.slice l i (i + B)) (Py.range 0 (length l) B).

(** [ceil(a / b)] on naturals. *)
Definition ceil_div (a b : nat) : nat := (a + b - 1) / b.

(* ===================================================================== *)
(** * Scripts for the double *)
(* ===================================================================== *)

(** A page that announces more: its identifiers and its token. *)
Definition page : Type := list string * string.

Definition clusters_page (p : page) : ListClusters.response :=
  {| ListClusters.clusterArns := fst p; ListClusters.nextToken := Some (snd p) |}.
Definition clusters_last (ids : list string) : ListClusters.response :=
  {| ListClusters.clusterArns := ids; ListClusters.nextToken := None |}.

Definition services_page (p : page) : ListServices.response :=
  {| ListServices.serviceArns := fst p; ListServices.nextToken := Some (snd p) |}.
Definition services_last (ids : list string) : ListServices.response :=
  {| ListServices.serviceArns := ids; ListServices.nextToken := None |}.

Definition tasks_page (p : page) : ListTasks.response :=
  {| ListTasks.taskArns := fst p; ListTasks.nextToken := Some (snd p) |}.
Definition tasks_last (ids : list string) : ListTasks.response :=
  {| ListTasks.taskArns := ids; ListTasks.nextToken := None |}.

(** The identifiers of a whole listing, page after page. *)
Definition all_ids (pre : list page) (last : list string) : list string :=
  concat (map fst pre) ++ last.

(** A script that serves the responses [rs] and then [rest]. *)
Definition serving {R : Type} (rs : list R) (rest : list (exn + R))
    : list (exn + R) :=
  map inr rs ++ rest.

(** A script that serves the responses [rs], then fails with [e]. *)
Definition failing_after {R : Type} (rs : list R) (e : exn)
    (rest : list (exn + R)) : list (exn + R) :=
  map inr rs ++ inl e :: rest.

(** A client that has received no call yet. *)
Definition fresh {R : Type} (s : list (exn + R)) : World R :=
  {| script := s; calls := [] |}.

(** The number of identifiers a detail call asks for. *)
Definition requested (c : call) : nat :=
  match c with
  | describe_tasks _ ids => length ids
  | describe_services _ ids => length ids
  | describe_clusters ids _ => length ids
  | _ => 0
  end.

(** The [nextToken] keyword of a listing call. *)
Definition next_token_of (c : call) : option string :=
  match c with
  | list_clusters t => t
  | list_services _ t => t
  | list_tasks _ _ t => t
  | _ => None
  end.

(** The number of tasks whose [lastStatus] is [s]. *)
Definition count_status (s : string) (task_details : list Task) : nat :=
  length (filter (fun t => lastStatus t = s) task_details).

(** The sum of the counts held by a status map. *)
Definition total (status_count : gmap string nat) : nat :=
  map_fold (fun _ n acc => n + acc) 0 status_count.

Definition with_status (s : string) : Task :=
  {| taskArn := "arn:aws:ecs:task/" ++ s; lastStatus := s |}.

(** The [nextToken] keywords of the calls of a whole listing: none on
    the first call, then what [if next_token:] lets through of the token
    of each page. *)
Definition listing_kwargs (pre : list page) : list (option string) :=
  None :: map (fun p => token_kwarg (Some (snd p))) pre.

(* ===================================================================== *)
(** * Observing a run *)
(* ===================================================================== *)

(** What the run of [m] against the client [w] ends in. *)
Definition result {R A : Type} (m : M R A) (w : World R) : outcome A :=
  fst (m w).

(** The calls the client received during the run, oldest first. *)
Definition issued {R A : Type} (m : M R A) (w : World R) : list call :=
  skipn (length (calls w)) (calls (snd (m w))).

(** The part of the script the run left unserved. *)
Definition unserved {R A : Type} (m : M R A) (w : World R)
    : list (exn + R) :=
  script (snd (m w)).

(* ===================================================================== *)
(** * More Python primitives *)
(* ===================================================================== *)

(** [s.split(sep)] for a separator of one character: the pieces between
    the occurrences of [sep], empty pieces included. *)
Fixpoint str_split (sep : ascii) (s : string) : list string :=
  match s with
  | EmptyString => [EmptyString]
  | String c s' =>
      if Ascii.eqb c sep then EmptyString :: str_split sep s'
      else match str_split sep s' with
           | piece :: pieces => String c piece :: pieces
           | [] => [String c EmptyString]
           end
  end.

(** [l[i]] for any integer [i]: a negative index counts from the end,
    and an index out of range raises [IndexError], here [None]. *)
Definition getitem {A : Type} (l : list A) (i : Z) : option A :=
  if (0 <=? i)%Z then nth_error l (Z.to_nat i)
  else if (- Z.of_nat (length l) <=? i)%Z
       then nth_error l (Z.to_nat (Z.of_nat (length l) + i))
       else None.

(** [s[k:]] on a [str], for [k >= 0]. *)
Definition str_from (s : string) (k : nat) : string :=
  String.substring k (String.length s - k) s.

(** [str(i)] for a natural number. *)
Definition str_of_nat (i : nat) : string :=
  NilZero.string_of_uint (Nat.to_uint i).

(** Whether the character [c] occurs in [s]. *)
Fixpoint occurs (c : ascii) (s : string) : bool :=
  match s with
  | EmptyString => false
  | String c' s' => Ascii.eqb c' c || occurs c s'
  end.

(* ===================================================================== *)
(** * Names, groups and grouping by status *)
(* ===================================================================== *)

(** [arn.split('/')[-1]], as in [list_clusters_menu],
    [list_services_menu], [print_task_summary] and [show_task_list]. *)
Definition last_segment (arn : string) : option string :=
  getitem (str_split "/" arn) (-1).

(** The group shown by [show_task_list]:
    [if group.startswith('service:'): group = group[8:]]. *)
Definition shown_group (group : string) : string :=
  if String.prefix "service:" group then str_from group 8 else group.

(** The grouping loop of [show_service_summary]:
    [tasks_by_status = defaultdict(list)], then
    [tasks_by_status[task['lastStatus']].append(task)] for each task. *)
Definition tasks_by_status_step (tasks_by_status : gmap string (list Task))
    (task : Task) : gmap string (list Task) :=
  <[lastStatus task :=
      default [] (tasks_by_status !! lastStatus task) ++ [task]]>
    tasks_by_status.

Definition tasks_by_status_of (task_details : list Task)
    : gmap string (list Task) :=
  fold_left tasks_by_status_step task_details ∅.

(** The tasks of [ts] whose [lastStatus] is [s], in the order of [ts]. *)
Definition with_status_of (s : string) (ts : list Task) : list Task :=
  filter (fun t => lastStatus t = s) ts.

(* ===================================================================== *)
(** * The console and the two selection menus *)
(* ===================================================================== *)

(** The [COLORS] table. *)
Module COLORS.
Definition ESC : string := String (ascii_of_nat 27) "".
Definition BLUE : string := ESC ++ "[0;34m".
Definition GREEN : string := ESC ++ "[0;32m".
Definition YELLOW : string := ESC ++ "[1;33m".
Definition RED : string := ESC ++ "[0;31m".
Definition BOLD : string := ESC ++ "[1m".
Definition NC : string := ESC ++ "[0m".
End COLORS.

(** What reaches the terminal: a line written by [print], or the prompt
    written by [input]. *)
Inductive out_event : Type :=
| Printed (line : string)
| Prompted (prompt : string).

(** The client together with the terminal: the lines the user will
    type, and what was written so far, oldest first. *)
Record Session (R : Type) : Type :=
  { client : World R; stdin : list string; stdout : list out_event }.

Arguments client {R} _.
Arguments stdin {R} _.
Arguments stdout {R} _.

(** Exceptions that can leave a menu: one raised by the client, the
    [EOFError] of [input] at the end of the input, or an [IndexError]. *)
Inductive menu_exn : Type :=
| ClientRaised (e : exn)
| EOFError
| IndexError.

Inductive ended (A : Type) : Type :=
| Done (a : A)
| Raised (e : menu_exn)
| LoopCut.

Arguments Done {A} a.
Arguments Raised {A} e.
Arguments LoopCut {A}.

Definition Sess (R A : Type) : Type := Session R -> ended A * Session R.

Definition sret {R A : Type} (a : A) : Sess R A := fun s => (Done a, s).

Definition sbind {R A B : Type} (m : Sess R A) (k : A -> Sess R B)
    : Sess R B :=
  fun s =>
    match m s with
    | (Done a, s') => k a s'
    | (Raised e, s') => (Raised e, s')
    | (LoopCut, s') => (LoopCut, s')
    end.

Notation "x <~ c1 ;; c2" := (sbind c1 (fun x => c2))
  (at level 100, c1 at next level, right associativity).

(** A client computation run inside a session. *)
Definition on_client {R A : Type} (m : M R A) : Sess R A :=
  fun s =>
    let (o, w') := m (client s) in
    let s' := {| client := w'; stdin := stdin s; stdout := stdout s |} in
    match o with
    | Return a => (Done a, s')
    | Raise e => (Raised (ClientRaised e), s')
    | OutOfFuel => (LoopCut, s')
    end.

(** [print(line)] *)
Definition print {R : Type} (line : string) : Sess R unit :=
  fun s =>
    (Done tt, {| client := client s; stdin := stdin s;
                 stdout := stdout s ++ [Printed line] |}).

(** [input(prompt)] *)
Definition input {R : Type} (prompt : string) : Sess R string :=
  fun s =>
    match stdin s with
    | [] => (Raised EOFError,
             {| client := client s; stdin := [];
                stdout := stdout s ++ [Prompted prompt] |})
    | line :: rest => (Done line,
             {| client := client s; stdin := rest;
                stdout := stdout s ++ [Prompted prompt] |})
    end.

(** A subscript evaluated inside a session. *)
Definition subscript {R A : Type} (x : option A) : Sess R A :=
  fun s =>
    match x with
    | Some a => (Done a, s)
    | None => (Raised IndexError, s)
    end.

(** [print_header], [print_warning], [print_error] *)
Definition print_header {R : Type} (text : string) : Sess R unit :=
  print (COLORS.BLUE ++ "========== " ++ text ++ " ==========" ++ COLORS.NC).

Definition print_warning {R : Type} (text : string) : Sess R unit :=
  print (COLORS.YELLOW ++ text ++ COLORS.NC).

Definition print_error {R : Type} (text : string) : Sess R unit :=
  print (COLORS.RED ++ text ++ COLORS.NC).

(** What [list_services_menu] returns: [None], [False], or a pair. *)
Inductive service_choice : Type :=
| NoService
| GoBack
| ChosenService (service : string * string).

Section Menus.

(** Two built-ins are taken as they come: [str.lower], and [int] on a
    string, which is [None] when [int] raises [ValueError]. *)
Variable lower : string -> string.
Variable int : string -> option Z.

(** The [for i, arn in enumerate(arns, 1)] loop of both menus, with the
    index and the list built so far as arguments. *)
Fixpoint menu_entries {R : Type} (i : nat) (arns : list string)
    (entries : list (string * string)) : Sess R (list (string * string)) :=
  match arns with
  | [] => sret entries
  | arn :: arns' =>
      name <~ subscript (last_segment arn) ;;
      let entries := entries ++ [(arn, name)] in
      _ <~ print (str_of_nat i ++ ") " ++ name) ;;
      menu_entries (S i) arns' entries
  end.

(** [list_clusters_menu(ecs_client)] *)
Definition list_clusters_menu (fuel : nat)
    : Sess ListClusters.response (option (string * string)) :=
  cluster_arns <~ on_client (get_clusters fuel) ;;
  if negb (Py.list_truthy cluster_arns) then
    _ <~ print_warning "No clusters found." ;;
    sret None
  else
    _ <~ print_header "AVAILABLE ECS CLUSTERS" ;;
    clusters_list <~ menu_entries 1 cluster_arns [] ;;
    _ <~ print "" ;;
    selection <~ input "Select a cluster (number) or press 'q' to quit: " ;;
    if String.eqb (lower selection) "q" then sret None
    else
      match int selection with
      | None =>
          _ <~ print_error "Invalid input. Please enter a number." ;;
          sret None
      | Some n =>
          let index := (n - 1)%Z in
          if ((index <? 0) || (Z.of_nat (length clusters_list) <=? index))%Z
          then
            _ <~ print_error "Invalid selection." ;;
            sret None
          else
            chosen <~ subscript (getitem clusters_list index) ;;
            sret (Some chosen)
      end.

(** [list_services_menu(ecs_client, cluster_arn, cluster_name)] *)
Definition list_services_menu (fuel : nat) (cluster_arn cluster_name : string)
    : Sess ListServices.response service_choice :=
  service_arns <~ on_client (get_services fuel cluster_arn) ;;
  if negb (Py.list_truthy service_arns) then
    _ <~ print_warning ("No services found in cluster: " ++ cluster_name) ;;
    sret NoService
  else
    _ <~ print_header ("SERVICES IN CLUSTER: " ++ cluster_name) ;;
    services_list <~ menu_entries 1 service_arns [] ;;
    _ <~ print "" ;;
    selection <~ input
      "Select a service (number), press 'b' to go back, or 'q' to quit: " ;;
    if String.eqb (lower selection) "q" then sret NoService
    else if String.eqb (lower selection) "b" then sret GoBack
    else
      match int selection with
      | None =>
          _ <~ print_error "Invalid input. Please enter a number." ;;
          sret NoService
      | Some n =>
          let index := (n - 1)%Z in
          if ((index <? 0) || (Z.of_nat (length services_list) <=? index))%Z
          then
            _ <~ print_error "Invalid selection." ;;
            sret NoService
          else
            chosen <~ subscript (getitem services_list index) ;;
            sret (ChosenService chosen)
      end.

End Menus.

(** The lines both menus print for the identifiers [arns], numbered
    from [i]. *)
Fixpoint numbered (i : nat) (names : list string) : list string :=
  match names with
  | [] => []
  | name :: names' =>
      (str_of_nat i ++ ") " ++ name)%string :: numbered (S i) names'
  end.

(** Stand-ins for the two built-ins, good for plain inputs: lower-casing
    of the letters A to Z, and reading a string of digits. *)
Definition ascii_lower (c : ascii) : ascii :=
  let n := nat_of_ascii c in
  if (65 <=? n) && (n <=? 90) then ascii_of_nat (n + 32) else c.

Fixpoint str_lower (s : string) : string :=
  match s with
  | EmptyString => EmptyString
  | String c s' => String (ascii_lower c) (str_lower s')
  end.

Definition int_of_digits (s : string) : option Z :=
  match s with
  | EmptyString => None
  | _ => option_map (fun d => Z.of_nat (Nat.of_uint d))
                    (NilEmpty.uint_of_string s)
  end.

(** The same with a sign in front, as [int] reads ['-1'] and ['+2']. *)
Definition int_of_signed (s : string) : option Z :=
  match s with
  | String "-" digits => option_map Z.opp (int_of_digits digits)
  | String "+" digits => int_of_digits digits
  | _ => int_of_digits s
  end.

(** The name of an identifier as a total function: the last piece of
    the split, which is always there. *)
Definition name_of (arn : string) : string :=
  List.last (str_split "/" arn) "".

(** The entries both menus build for the identifiers [arns]. *)
Definition entries_of (arns : list string) : list (string * string) :=
  map (fun arn => (arn, name_of arn)) arns.

Definition clusters_prompt : string :=
  "Select a cluster (number) or press 'q' to quit: ".

Definition services_prompt : string :=
  "Select a service (number), press 'b' to go back, or 'q' to quit: ".

(** What both menus have written once the selection is asked for:
    the header, one numbered line per entry, an empty line, the prompt. *)
Definition menu_shown (header prompt : string) (arns : list string)
    : list out_event :=
  Printed (COLORS.BLUE ++ "========== " ++ header ++ " ==========" ++ COLORS.NC)
  :: map Printed (numbered 1 (map name_of arns))
  ++ [Printed ""; Prompted prompt].

Definition error_line (text : string) : out_event :=
  Printed (COLORS.RED ++ text ++ COLORS.NC).

Definition warning_line (text : string) : out_event :=
  Printed (COLORS.YELLOW ++ text ++ COLORS.NC).

(** A session seen from outside. *)
Definition session {R : Type} (w : World R) (typed : list string)
    (shown : list out_event) : Session R :=
  {| client := w; stdin := typed; stdout := shown |}.

(* ===================================================================== *)
(** * The listing loop *)
(* ===================================================================== *)

Section PaginatedFacts.

Context {R : Type}.
Variable request : option string -> call.
Variable items : R -> list string.
Variable token : R -> option string.

Local Abbreviation loop := (paginated_loop request items token).
Local Abbreviation sent := (sent_tokens token).

Lemma sent_tokens_cons x r pre :
  sent x (r :: pre) = token_kwarg x :: sent (token r) pre.
Proof. reflexivity. Qed.

Lemma sent_tokens_length x pre : length (sent x pre) = S (length pre).
Proof. unfold sent_tokens. simpl. now rewrite length_map. Qed.

(** Pages with a token are all consumed, the first page without one
    ends the loop, and what follows it in the script is left alone. *)
Lemma paginated_loop_serves pre last rest :
  Forall (fun r => is_Some (token r)) pre ->
  token last = None ->
  forall fuel acc x log,
    length pre < fuel ->
    loop fuel acc x {| script := serving (pre ++ [last]) rest; calls := log |}
    = (Return (acc ++ concat (map items pre) ++ items last),
       {| script := rest; calls := log ++ map request (sent x pre) |}).
Proof.
  intros Hpre Hlast.
  induction Hpre as [|r pre [t Ht] _ IH]; intros fuel acc x log Hfuel.
  - destruct fuel as [|fuel]; [simpl in Hfuel; lia|].
    simpl. unfold bind, invoke. simpl. rewrite Hlast.
    reflexivity.
  - destruct fuel as [|fuel]; [simpl in Hfuel; lia|].
    simpl in Hfuel.
    cbn [paginated_loop]. unfold bind at 1. unfold invoke at 1.
    cbn [serving app map script calls]. rewrite Ht.
    fold (serving (pre ++ [last]) rest).
    rewrite IH by lia.
    rewrite sent_tokens_cons, Ht.
    cbn [concat map]. rewrite <- !app_assoc. reflexivity.
Qed.

(** An exception raised by a call ends the loop with that exception;
    no further call is made. *)
Lemma paginated_loop_fails pre e rest :
  Forall (fun r => is_Some (token r)) pre ->
  forall fuel acc x log,
    length pre < fuel ->
    loop fuel acc x {| script := failing_after pre e rest; calls := log |}
    = (Raise e,
       {| script := rest; calls := log ++ map request (sent x pre) |}).
Proof.
  intros Hpre.
  induction Hpre as [|r pre [t Ht] _ IH]; intros fuel acc x log Hfuel.
  - destruct fuel as [|fuel]; [simpl in Hfuel; lia|].
    reflexivity.
  - destruct fuel as [|fuel]; [simpl in Hfuel; lia|].
    simpl in Hfuel.
    cbn [paginated_loop]. unfold bind at 1. unfold invoke at 1.
    cbn [failing_after app map script calls]. rewrite Ht.
    fold (failing_after pre e rest).
    rewrite IH by lia.
    rewrite sent_tokens_cons, Ht.
    rewrite <- !app_assoc. reflexivity.
Qed.

(** A listing that never stops announcing a next page is never
    returned from: every bound on the iterations is reached. *)
Lemma paginated_loop_endless pre :
  Forall (fun r => is_Some (token r)) pre ->
  forall fuel acc x log,
    fuel <= length pre ->
    fst (loop fuel acc x {| script := serving pre []; calls := log |})
    = OutOfFuel.
Proof.
  intros Hpre.
  induction Hpre as [|r pre [t Ht] _ IH]; intros fuel acc x log Hfuel.
  - destruct fuel; [reflexivity | simpl in Hfuel; lia].
  - destruct fuel as [|fuel]; [reflexivity|].
    simpl in Hfuel.
    cbn [paginated_loop]. unfold bind at 1. unfold invoke at 1.
    cbn [serving app map script calls]. rewrite Ht.
    rewrite app_nil_r.
    specialize (IH fuel (acc ++ items r) (Some t)
                   (log ++ [request (token_kwarg x)])).
    unfold serving in IH. rewrite app_nil_r in IH. apply IH. lia.
Qed.

End PaginatedFacts.

(** The three listing functions are instances of the listing scheme. *)

Lemma get_clusters_loop_scheme fuel acc x w :
  get_clusters_loop fuel acc x w
  = paginated_loop list_clusters ListClusters.clusterArns
      ListClusters.nextToken fuel acc x w.
Proof.
  revert acc x w.
  induction fuel as [|fuel IH]; intros acc x w; [reflexivity|].
  cbn [get_clusters_loop paginated_loop]. unfold bind, token_kwarg.
  destruct (Py.opt_truthy x);
    (destruct (invoke _ w) as [[response| |] w']; [|reflexivity..]);
    (destruct (ListClusters.nextToken response); [apply IH | reflexivity]).
Qed.

Lemma get_services_loop_scheme fuel cluster_arn acc x w :
  get_services_loop fuel cluster_arn acc x w
  = paginated_loop (list_services cluster_arn) ListServices.serviceArns
      ListServices.nextToken fuel acc x w.
Proof.
  revert acc x w.
  induction fuel as [|fuel IH]; intros acc x w; [reflexivity|].
  cbn [get_services_loop paginated_loop]. unfold bind, token_kwarg.
  destruct (Py.opt_truthy x);
    (destruct (invoke _ w) as [[response| |] w']; [|reflexivity..]);
    (destruct (ListServices.nextToken response); [apply IH | reflexivity]).
Qed.

(** For [get_tasks] the [serviceName] keyword is fixed through the loop:
    it is [service_arn] when that is true, and left out otherwise. *)
Lemma get_tasks_loop_scheme fuel cluster_arn service_arn acc x w :
  get_tasks_loop fuel cluster_arn service_arn acc x w
  = paginated_loop (list_tasks cluster_arn (token_kwarg service_arn))
      ListTasks.taskArns ListTasks.nextToken fuel acc x w.
Proof.
  revert acc x w.
  induction fuel as [|fuel IH]; intros acc x w; [reflexivity|].
  cbn [get_tasks_loop paginated_loop]. unfold bind.
  assert (E : (if Py.opt_truthy service_arn
               then if Py.opt_truthy x
                    then invoke (list_tasks cluster_arn service_arn x)
                    else invoke (list_tasks cluster_arn service_arn None)
               else if Py.opt_truthy x
                    then invoke (list_tasks cluster_arn None x)
                    else invoke (list_tasks cluster_arn None None))
              = invoke (R := ListTasks.response)
                  (list_tasks cluster_arn (token_kwarg service_arn)
                     (token_kwarg x))).
  { unfold token_kwarg.
    destruct (Py.opt_truthy service_arn), (Py.opt_truthy x); reflexivity. }
  rewrite E.
  destruct (invoke _ w) as [[response| |] w']; [|reflexivity..].
  destruct (ListTasks.nextToken response); [apply IH | reflexivity].
Qed.

(* ===================================================================== *)
(** * Ranges and chunks *)
(* ===================================================================== *)

Lemma ceil_div_zero b : 0 < b -> ceil_div 0 b = 0.
Proof. intros Hb. unfold ceil_div. apply Nat.div_small. lia. Qed.

Lemma ceil_div_pos a b : 0 < b -> 0 < a -> ceil_div a b = S ((a - 1) / b).
Proof.
  intros Hb Ha. unfold ceil_div.
  replace (a + b - 1) with ((a - 1) + 1 * b) by lia.
  rewrite Nat.div_add by lia. lia.
Qed.

Lemma ceil_div_step a b :
  0 < b -> 0 < a -> ceil_div a b = S (ceil_div (a - b) b).
Proof.
  intros Hb Ha. rewrite ceil_div_pos by assumption. f_equal.
  destruct (le_lt_dec a b) as [Hle|Hlt].
  - replace (a - b) with 0 by lia. rewrite ceil_div_zero by assumption.
    apply Nat.div_small. lia.
  - unfold ceil_div. f_equal. lia.
Qed.

(** [ceil_div a b] is the least number of [b]-sized batches that hold
    [a] items. *)
Lemma ceil_div_spec a b k :
  0 < b -> (ceil_div a b = k <-> a <= k * b /\ k * b < a + b).
Proof.
  intros Hb. unfold ceil_div.
  pose proof (Nat.div_mod_eq (a + b - 1) b) as E.
  pose proof (Nat.mod_upper_bound (a + b - 1) b ltac:(lia)) as U.
  set (q := (a + b - 1) / b) in *. set (r := (a + b - 1) mod b) in *.
  clearbody q r. split.
  - intros <-. nia.
  - intros [H1 H2]. nia.
Qed.

Lemma range_from_length step : 0 < step ->
  forall fuel i stop, stop - i <= fuel ->
    length (Py.range_from fuel i stop step) = ceil_div (stop - i) step.
Proof.
  intros Hstep. induction fuel as [|fuel IH]; intros i stop Hfuel.
  - simpl. replace (stop - i) with 0 by lia. now rewrite ceil_div_zero.
  - simpl. destruct (Nat.ltb_spec i stop) as [Hlt|Hge].
    + simpl. rewrite IH by lia.
      rewrite (ceil_div_step (stop - i)) by lia.
      do 2 f_equal. lia.
    + replace (stop - i) with 0 by lia. now rewrite ceil_div_zero.
Qed.

Lemma range_length stop step :
  0 < step -> length (Py.range 0 stop step) = ceil_div stop step.
Proof.
  intros Hstep. unfold Py.range. rewrite range_from_length by lia.
  f_equal. lia.
Qed.

(** The [k]-th index of a range is [start + k * step]. *)
Lemma range_from_nth step : 0 < step ->
  forall fuel i stop k j,
    nth_error (Py.range_from fuel i stop step) k = Some j -> j = i + k * step.
Proof.
  intros Hstep. induction fuel as [|fuel IH]; intros i stop k j Hk.
  - destruct k; discriminate.
  - simpl in Hk. destruct (i <? stop); [|destruct k; discriminate].
    destruct k as [|k]; simpl in Hk.
    + injection Hk as <-. lia.
    + apply IH in Hk. lia.
Qed.

Section ChunkFacts.

Context {A : Type}.
Implicit Types l chunk : list A.

Lemma slice_length_le l i B : length (Py.slice l i (i + B)) <= B.
Proof.
  unfold Py.slice. rewrite length_firstn. lia.
Qed.

Lemma slice_length l i B :
  length (Py.slice l i (i + B)) = Nat.min B (length l - i).
Proof.
  unfold Py.slice. rewrite length_firstn, length_skipn. f_equal. lia.
Qed.

(** Chunks taken from index [i] on rebuild the list from [i] on. *)
Lemma concat_slices_from l B : 0 < B ->
  forall fuel i, length l - i <= fuel ->
    concat (map (fun j => Py.slice l j (j + B))
                (Py.range_from fuel i (length l) B))
    = skipn i l.
Proof.
  intros HB. induction fuel as [|fuel IH]; intros i Hfuel.
  - simpl. symmetry. apply skipn_all2. lia.
  - simpl. destruct (Nat.ltb_spec i (length l)) as [Hlt|Hge].
    + simpl. rewrite IH by lia. unfold Py.slice.
      replace (i + B - i) with B by lia.
      transitivity (firstn B (skipn i l) ++ skipn B (skipn i l));
        [|apply firstn_skipn].
      f_equal. rewrite skipn_skipn. f_equal. lia.
    + simpl. symmetry. apply skipn_all2. lia.
Qed.

Lemma chunks_of_concat B l : 0 < B -> concat (chunks_of B l) = l.
Proof.
  intros HB. unfold chunks_of, Py.range.
  rewrite concat_slices_from by lia. reflexivity.
Qed.

Lemma chunks_of_length B l :
  0 < B -> length (chunks_of B l) = ceil_div (length l) B.
Proof.
  intros HB. unfold chunks_of. rewrite length_map.
  now apply range_length.
Qed.

Lemma chunks_of_bounded B l :
  List.Forall (fun chunk => length chunk <= B) (chunks_of B l).
Proof.
  unfold chunks_of. apply List.Forall_forall. intros chunk Hin.
  apply in_map_iff in Hin as [i [<- _]]. apply slice_length_le.
Qed.

(** The [k]-th chunk is the run of the input that starts at index
    [k * B]. *)
Lemma chunks_of_nth B l k chunk : 0 < B ->
  nth_error (chunks_of B l) k = Some chunk ->
  chunk = firstn B (skipn (k * B) l).
Proof.
  intros HB Hk. unfold chunks_of in Hk.
  rewrite nth_error_map in Hk.
  destruct (nth_error (Py.range 0 (length l) B) k) as [j|] eqn:Hj;
    [|discriminate].
  injection Hk as <-. apply (range_from_nth B HB) in Hj. subst j.
  unfold Py.slice. f_equal. lia.
Qed.

Lemma chunks_of_contiguous B l chunk : 0 < B ->
  In chunk (chunks_of B l) ->
  exists before after, l = before ++ chunk ++ after.
Proof.
  intros HB Hin. apply In_nth_error in Hin as [k Hk].
  apply chunks_of_nth in Hk; [|assumption]. subst chunk.
  exists (firstn (k * B) l), (skipn B (skipn (k * B) l)).
  now rewrite firstn_skipn, firstn_skipn.
Qed.

Lemma chunks_of_sizes B l :
  map (@length A) (chunks_of B l)
  = map (fun i => Nat.min B (length l - i)) (Py.range 0 (length l) B).
Proof.
  unfold chunks_of. rewrite map_map. apply map_ext.
  intros i. apply slice_length.
Qed.

End ChunkFacts.

(* ===================================================================== *)
(** * Reading off a run *)
(* ===================================================================== *)

Lemma run_observed {R A : Type} (m : M R A) (o : outcome A)
    (s rest : list (exn + R)) (log cs : list call) :
  m {| script := s; calls := log |}
  = (o, {| script := rest; calls := log ++ cs |}) ->
  result m {| script := s; calls := log |} = o
  /\ issued m {| script := s; calls := log |} = cs
  /\ unserved m {| script := s; calls := log |} = rest.
Proof.
  intros E. unfold result, issued, unserved. rewrite E. simpl.
  repeat split. rewrite skipn_app, Nat.sub_diag, skipn_all. reflexivity.
Qed.

(* ===================================================================== *)
(** * The batched loop *)
(* ===================================================================== *)

Section BatchedFacts.

Context {R D : Type}.
Variable fetch : list string -> call.
Variable records : R -> list D.

Local Abbreviation each := (batched_for fetch records).

(** When the client answers every call, each chunk costs one call and
    the detail lists are appended in chunk order. *)
Lemma batched_for_serves chunks :
  forall rs rest acc log,
    length chunks <= length rs ->
    each chunks acc {| script := serving rs rest; calls := log |}
    = (Return (acc ++ concat (map records (firstn (length chunks) rs))),
       {| script := serving (skipn (length chunks) rs) rest;
          calls := log ++ map fetch chunks |}).
Proof.
  induction chunks as [|chunk chunks IH]; intros rs rest acc log Hlen.
  - simpl. unfold ret. now rewrite !app_nil_r.
  - destruct rs as [|r rs]; [simpl in Hlen; lia|]. simpl in Hlen.
    cbn [batched_for]. unfold bind at 1. unfold invoke at 1.
    cbn [serving app map script calls].
    fold (serving rs rest). rewrite IH by lia.
    cbn [length firstn skipn concat map]. rewrite <- !app_assoc.
    reflexivity.
Qed.

(** When a call raises, the loop ends there with that exception: the
    chunks after it are never requested. *)
Lemma batched_for_fails chunks :
  forall rs e rest acc log,
    length rs < length chunks ->
    each chunks acc {| script := failing_after rs e rest; calls := log |}
    = (Raise e,
       {| script := rest;
          calls := log ++ map fetch (firstn (S (length rs)) chunks) |}).
Proof.
  induction chunks as [|chunk chunks IH]; intros rs e rest acc log Hlen.
  - simpl in Hlen. lia.
  - destruct rs as [|r rs].
    + reflexivity.
    + simpl in Hlen.
      cbn [batched_for]. unfold bind at 1. unfold invoke at 1.
      cbn [failing_after app map script calls].
      fold (failing_after rs e rest). rewrite IH by lia.
      cbn [length firstn map]. rewrite <- !app_assoc. reflexivity.
Qed.

End BatchedFacts.

(** The two batched detail functions are instances of the batched
    scheme, run over the chunks of the comprehension. *)

Lemma get_task_details_for_scheme cluster_arn chunks acc w :
  get_task_details_for cluster_arn chunks acc w
  = batched_for (describe_tasks cluster_arn) DescribeTasks.tasks chunks acc w.
Proof.
  revert acc w. induction chunks as [|chunk chunks IH]; intros acc w;
    [reflexivity|].
  cbn [get_task_details_for batched_for]. unfold bind.
  destruct (invoke _ w) as [[response| |] w']; [apply IH|reflexivity..].
Qed.

Lemma get_service_details_for_scheme cluster_arn chunks acc w :
  get_service_details_for cluster_arn chunks acc w
  = batched_for (describe_services cluster_arn) DescribeServices.services
      chunks acc w.
Proof.
  revert acc w. induction chunks as [|chunk chunks IH]; intros acc w;
    [reflexivity|].
  cbn [get_service_details_for batched_for]. unfold bind.
  destruct (invoke _ w) as [[response| |] w']; [apply IH|reflexivity..].
Qed.

Lemma get_task_details_scheme cluster_arn task_arns w :
  get_task_details cluster_arn task_arns w
  = batched_for (describe_tasks cluster_arn) DescribeTasks.tasks
      (chunks_of 100 task_arns) [] w.
Proof.
  unfold get_task_details. destruct task_arns as [|a l]; [reflexivity|].
  cbn [Py.list_truthy negb]. apply get_task_details_for_scheme.
Qed.

Lemma get_service_details_scheme cluster_arn service_arns w :
  get_service_details cluster_arn service_arns w
  = batched_for (describe_services cluster_arn) DescribeServices.services
      (chunks_of 10 service_arns) [] w.
Proof.
  unfold get_service_details. destruct service_arns as [|a l]; [reflexivity|].
  cbn [Py.list_truthy negb]. apply get_service_details_for_scheme.
Qed.

(* ===================================================================== *)
(** * Listings served page by page *)
(* ===================================================================== *)

Section PagedScripts.

Context {R : Type}.
Variable request : option string -> call.
Variable items : R -> list string.
Variable token : R -> option string.
Variable mk_page : page -> R.
Variable mk_last : list string -> R.

Hypothesis items_page : forall p, items (mk_page p) = fst p.
Hypothesis token_page : forall p, token (mk_page p) = Some (snd p).
Hypothesis items_last : forall ids, items (mk_last ids) = ids.
Hypothesis token_last : forall ids, token (mk_last ids) = None.

Lemma pages_have_token (pre : list page) :
  Forall (fun r => is_Some (token r)) (map mk_page pre).
Proof.
  induction pre as [|p pre IH]; constructor; [|assumption].
  rewrite token_page. eauto.
Qed.

Lemma sent_tokens_pages x (pre : list page) :
  sent_tokens token x (map mk_page pre)
  = token_kwarg x :: map (fun p => token_kwarg (Some (snd p))) pre.
Proof.
  unfold sent_tokens. f_equal. rewrite map_map. apply map_ext.
  intros p. now rewrite token_page.
Qed.

Lemma items_pages (pre : list page) :
  concat (map items (map mk_page pre)) = concat (map fst pre).
Proof.
  f_equal. rewrite map_map. apply map_ext. intros p. apply items_page.
Qed.

Lemma paginated_listing_run pre last k rest log :
  paginated_loop request items token (S (length pre) + k) [] None
    {| script := serving (map mk_page pre ++ [mk_last last]) rest;
       calls := log |}
  = (Return (all_ids pre last),
     {| script := rest;
        calls := log ++ map request (listing_kwargs pre) |}).
Proof.
  rewrite (paginated_loop_serves request items token
             (map mk_page pre) (mk_last last) rest
             (pages_have_token pre) (token_last last))
    by (rewrite length_map; lia).
  rewrite sent_tokens_pages, items_pages, items_last. reflexivity.
Qed.

Lemma paginated_listing_failure pre e k rest log :
  paginated_loop request items token (S (length pre) + k) [] None
    {| script := failing_after (map mk_page pre) e rest; calls := log |}
  = (Raise e,
     {| script := rest;
        calls := log ++ map request (listing_kwargs pre) |}).
Proof.
  rewrite (paginated_loop_fails request items token
             (map mk_page pre) e rest (pages_have_token pre))
    by (rewrite length_map; lia).
  rewrite sent_tokens_pages. reflexivity.
Qed.

End PagedScripts.

Lemma listing_kwargs_length pre : length (listing_kwargs pre) = S (length pre).
Proof. unfold listing_kwargs. simpl. now rewrite length_map. Qed.

Lemma all_ids_from_pages pre last x :
  In x (all_ids pre last) ->
  In x last \/ exists p, In p pre /\ In x (fst p).
Proof.
  unfold all_ids. intros Hx. apply in_app_or in Hx as [Hx|Hx]; [right|now left].
  apply in_concat in Hx as [ids [Hids Hx]].
  apply in_map_iff in Hids as [p [<- Hp]]. eauto.
Qed.

Lemma get_clusters_run pre last k rest log :
  get_clusters (S (length pre) + k)
    {| script := serving (map clusters_page pre ++ [clusters_last last]) rest;
       calls := log |}
  = (Return (all_ids pre last),
     {| script := rest;
        calls := log ++ map list_clusters (listing_kwargs pre) |}).
Proof.
  unfold get_clusters. rewrite get_clusters_loop_scheme.
  now apply paginated_listing_run.
Qed.

Lemma get_services_run cluster_arn pre last k rest log :
  get_services (S (length pre) + k) cluster_arn
    {| script := serving (map services_page pre ++ [services_last last]) rest;
       calls := log |}
  = (Return (all_ids pre last),
     {| script := rest;
        calls := log ++ map (list_services cluster_arn) (listing_kwargs pre) |}).
Proof.
  unfold get_services. rewrite get_services_loop_scheme.
  now apply paginated_listing_run.
Qed.

Lemma get_tasks_run cluster_arn service_arn pre last k rest log :
  get_tasks (S (length pre) + k) cluster_arn service_arn
    {| script := serving (map tasks_page pre ++ [tasks_last last]) rest;
       calls := log |}
  = (Return (all_ids pre last),
     {| script := rest;
        calls := log ++ map (list_tasks cluster_arn (token_kwarg service_arn))
                            (listing_kwargs pre) |}).
Proof.
  unfold get_tasks. rewrite get_tasks_loop_scheme.
  now apply paginated_listing_run.
Qed.

(** C1.  Whatever pages the listing operation returns -- any number of
    pages that carry a token, then one that carries none -- each of
    [get_clusters], [get_services] and [get_tasks] returns the
    identifiers of all the pages, concatenated in the order served; every
    element of that list is an identifier of some page, never a token;
    and the function makes one call per page and none after the page
    without a token, so that whatever the script holds after that page
    stays unserved. *)
Theorem paginated_listing_returns_all_pages :
  forall (pre : list page) (last : list string) (k : nat),
    (forall rest log,
        let run := get_clusters (S (length pre) + k) in
        let w := {| script := serving (map clusters_page pre
                                         ++ [clusters_last last]) rest;
                    calls := log |} in
        result run w = Return (all_ids pre last)
        /\ length (issued run w) = S (length pre)
        /\ unserved run w = rest)
    /\ (forall cluster_arn rest log,
        let run := get_services (S (length pre) + k) cluster_arn in
        let w := {| script := serving (map services_page pre
                                         ++ [services_last last]) rest;
                    calls := log |} in
        result run w = Return (all_ids pre last)
        /\ length (issued run w) = S (length pre)
        /\ unserved run w = rest)
    /\ (forall cluster_arn service_arn rest log,
        let run := get_tasks (S (length pre) + k) cluster_arn service_arn in
        let w := {| script := serving (map tasks_page pre
                                         ++ [tasks_last last]) rest;
                    calls := log |} in
        result run w = Return (all_ids pre last)
        /\ length (issued run w) = S (length pre)
        /\ unserved run w = rest)
    /\ all_ids pre last = concat (map fst pre) ++ last
    /\ (forall x, In x (all_ids pre last) ->
                  In x last \/ exists p, In p pre /\ In x (fst p)).
Proof.
  intros pre last k. repeat apply conj.
  - intros rest log run w.
    destruct (run_observed _ _ _ _ _ _ (get_clusters_run pre last k rest log))
      as (Hr & Hi & Hu).
    subst run w. rewrite Hr, Hi, Hu, length_map, listing_kwargs_length.
    auto.
  - intros cluster_arn rest log run w.
    destruct (run_observed _ _ _ _ _ _
                (get_services_run cluster_arn pre last k rest log))
      as (Hr & Hi & Hu).
    subst run w. rewrite Hr, Hi, Hu, length_map, listing_kwargs_length.
    auto.
  - intros cluster_arn service_arn rest log run w.
    destruct (run_observed _ _ _ _ _ _
                (get_tasks_run cluster_arn service_arn pre last k rest log))
      as (Hr & Hi & Hu).
    subst run w. rewrite Hr, Hi, Hu, length_map, listing_kwargs_length.
    auto.
  - reflexivity.
  - apply all_ids_from_pages.
Qed.

(** C7.  [get_services] makes exactly one call per page served.  With
    two pages -- three identifiers and a token, then two identifiers and
    no token -- it returns the five identifiers in order after exactly
    two calls.  With an empty scope -- a first page without identifiers
    and without token -- it returns the empty list, not an exception,
    after exactly one call. *)
Theorem get_services_one_call_per_page :
  (forall cluster_arn (pre : list page) (last : list string) k rest log,
      let run := get_services (S (length pre) + k) cluster_arn in
      let pages := map services_page pre ++ [services_last last] in
      let w := {| script := serving pages rest; calls := log |} in
      length (issued run w) = length pages)
  /\ (forall cluster_arn a b c t d e k rest log,
      let run := get_services (2 + k) cluster_arn in
      let w := {| script := serving [services_page ([a; b; c], t);
                                     services_last [d; e]] rest;
                  calls := log |} in
      result run w = Return [a; b; c; d; e]
      /\ length (issued run w) = 2
      /\ unserved run w = rest)
  /\ (forall cluster_arn k rest log,
      let run := get_services (1 + k) cluster_arn in
      let w := {| script := serving [services_last []] rest;
                  calls := log |} in
      result run w = Return []
      /\ length (issued run w) = 1
      /\ unserved run w = rest).
Proof.
  repeat apply conj.
  - intros cluster_arn pre last k rest log run pages w.
    destruct (run_observed _ _ _ _ _ _
                (get_services_run cluster_arn pre last k rest log))
      as (_ & Hi & _).
    subst run pages w. rewrite Hi, length_map, listing_kwargs_length.
    rewrite length_app, length_map. simpl. lia.
  - intros cluster_arn a b c t d e k rest log run w.
    destruct (run_observed _ _ _ _ _ _
                (get_services_run cluster_arn [([a; b; c], t)] [d; e]
                   k rest log))
      as (Hr & Hi & Hu).
    subst run w. simpl in Hr, Hi, Hu |- *. rewrite Hr, Hi, Hu. auto.
  - intros cluster_arn k rest log run w.
    destruct (run_observed _ _ _ _ _ _
                (get_services_run cluster_arn [] [] k rest log))
      as (Hr & Hi & Hu).
    subst run w. simpl in Hr, Hi, Hu |- *. rewrite Hr, Hi, Hu. auto.
Qed.

(** A token that is not the empty string is passed back as it is. *)
Lemma token_kwarg_nonempty t : t <> "" -> token_kwarg (Some t) = Some t.
Proof.
  intros Ht. unfold token_kwarg, Py.opt_truthy, Py.str_truthy.
  destruct (String.eqb_spec t ""); [contradiction|reflexivity].
Qed.

(** The empty token is not: the next call carries no token at all. *)
Lemma token_kwarg_empty : token_kwarg (Some "") = None.
Proof. reflexivity. Qed.

(** When no page carries the empty token, the calls of [get_clusters]
    are the first call without token followed, page after page, by a
    call that carries the token of that page. *)
Lemma get_clusters_passes_nonempty_tokens pre last k rest log :
  List.Forall (fun p : page => snd p <> "") pre ->
  issued (get_clusters (S (length pre) + k))
    {| script := serving (map clusters_page pre ++ [clusters_last last]) rest;
       calls := log |}
  = list_clusters None :: map (fun p => list_clusters (Some (snd p))) pre.
Proof.
  intros Hne.
  destruct (run_observed _ _ _ _ _ _ (get_clusters_run pre last k rest log))
    as (_ & -> & _).
  unfold listing_kwargs. cbn [map]. f_equal. rewrite map_map.
  apply map_ext_in. intros p Hp. f_equal. apply token_kwarg_nonempty.
  rewrite List.Forall_forall in Hne. now apply Hne.
Qed.

(** C5, at the input where the code departs from it.  The first page
    carries the empty string as its token and a second page follows.
    [get_clusters] goes on to fetch the second page, since the key
    [nextToken] is in the response, but the second call is made without
    any token: [if next_token:] takes the empty token for no token.  The
    same holds for [get_services] and [get_tasks]. *)
Theorem empty_token_is_not_passed_back :
  let c1 := "arn:aws:ecs:us-east-1:1:cluster/a" in
  let c2 := "arn:aws:ecs:us-east-1:1:cluster/b" in
  let w := fresh (serving [clusters_page ([c1], ""); clusters_last [c2]] []) in
  let ws := fresh (serving [services_page ([c1], ""); services_last [c2]] []) in
  let wt := fresh (serving [tasks_page ([c1], ""); tasks_last [c2]] []) in
  result (get_clusters 2) w = Return [c1; c2]
  /\ issued (get_clusters 2) w = [list_clusters None; list_clusters None]
  /\ map next_token_of (issued (get_clusters 2) w) = [None; None]
  /\ issued (get_services 2 c1) ws
     = [list_services c1 None; list_services c1 None]
  /\ issued (get_tasks 2 c1 None) wt
     = [list_tasks c1 None None; list_tasks c1 None None].
Proof.
  cbv zeta. repeat apply conj; reflexivity.
Qed.

(* ===================================================================== *)
(** * Failing calls *)
(* ===================================================================== *)

Lemma get_clusters_failure pre e k rest log :
  get_clusters (S (length pre) + k)
    {| script := failing_after (map clusters_page pre) e rest; calls := log |}
  = (Raise e,
     {| script := rest;
        calls := log ++ map list_clusters (listing_kwargs pre) |}).
Proof.
  unfold get_clusters. rewrite get_clusters_loop_scheme.
  now apply paginated_listing_failure.
Qed.

Lemma get_services_failure cluster_arn pre e k rest log :
  get_services (S (length pre) + k) cluster_arn
    {| script := failing_after (map services_page pre) e rest; calls := log |}
  = (Raise e,
     {| script := rest;
        calls := log ++ map (list_services cluster_arn) (listing_kwargs pre) |}).
Proof.
  unfold get_services. rewrite get_services_loop_scheme.
  now apply paginated_listing_failure.
Qed.

Lemma get_tasks_failure cluster_arn service_arn pre e k rest log :
  get_tasks (S (length pre) + k) cluster_arn service_arn
    {| script := failing_after (map tasks_page pre) e rest; calls := log |}
  = (Raise e,
     {| script := rest;
        calls := log ++ map (list_tasks cluster_arn (token_kwarg service_arn))
                            (listing_kwargs pre) |}).
Proof.
  unfold get_tasks. rewrite get_tasks_loop_scheme.
  now apply paginated_listing_failure.
Qed.

Lemma get_task_details_failure cluster_arn task_arns rs e rest log :
  length rs < ceil_div (length task_arns) 100 ->
  get_task_details cluster_arn task_arns
    {| script := failing_after rs e rest; calls := log |}
  = (Raise e,
     {| script := rest;
        calls := log ++ map (describe_tasks cluster_arn)
                            (firstn (S (length rs))
                                    (chunks_of 100 task_arns)) |}).
Proof.
  intros Hlen. rewrite get_task_details_scheme.
  apply batched_for_fails. rewrite chunks_of_length by lia. exact Hlen.
Qed.

Lemma get_service_details_failure cluster_arn service_arns rs e rest log :
  length rs < ceil_div (length service_arns) 10 ->
  get_service_details cluster_arn service_arns
    {| script := failing_after rs e rest; calls := log |}
  = (Raise e,
     {| script := rest;
        calls := log ++ map (describe_services cluster_arn)
                            (firstn (S (length rs))
                                    (chunks_of 10 service_arns)) |}).
Proof.
  intros Hlen. rewrite get_service_details_scheme.
  apply batched_for_fails. rewrite chunks_of_length by lia. exact Hlen.
Qed.

(** C6.  When a client call raises [e] -- a listing call after any
    number of pages, or the detail call of any chunk after any number of
    answered chunks -- the function ends in [Raise e], the very
    exception the client raised, and so hands no list of the pages or
    chunks fetched so far to its caller; the failed call is the last one
    made (no retry, nothing else requested), and the rest of the script
    stays unserved. *)
Theorem remote_failure_propagates :
  forall (e : exn),
    (forall (pre : list page) k rest log,
        let run := get_clusters (S (length pre) + k) in
        let w := {| script := failing_after (map clusters_page pre) e rest;
                    calls := log |} in
        result run w = Raise e
        /\ length (issued run w) = S (length pre)
        /\ unserved run w = rest)
    /\ (forall cluster_arn (pre : list page) k rest log,
        let run := get_services (S (length pre) + k) cluster_arn in
        let w := {| script := failing_after (map services_page pre) e rest;
                    calls := log |} in
        result run w = Raise e
        /\ length (issued run w) = S (length pre)
        /\ unserved run w = rest)
    /\ (forall cluster_arn service_arn (pre : list page) k rest log,
        let run := get_tasks (S (length pre) + k) cluster_arn service_arn in
        let w := {| script := failing_after (map tasks_page pre) e rest;
                    calls := log |} in
        result run w = Raise e
        /\ length (issued run w) = S (length pre)
        /\ unserved run w = rest)
    /\ (forall cluster_arn task_arns rs rest log,
        length rs < ceil_div (length task_arns) 100 ->
        let run := get_task_details cluster_arn task_arns in
        let w := {| script := failing_after rs e rest; calls := log |} in
        result run w = Raise e
        /\ length (issued run w) = S (length rs)
        /\ unserved run w = rest)
    /\ (forall cluster_arn service_arns rs rest log,
        length rs < ceil_div (length service_arns) 10 ->
        let run := get_service_details cluster_arn service_arns in
        let w := {| script := failing_after rs e rest; calls := log |} in
        result run w = Raise e
        /\ length (issued run w) = S (length rs)
        /\ unserved run w = rest).
Proof.
  intros e. repeat apply conj.
  - intros pre k rest log run w.
    destruct (run_observed _ _ _ _ _ _ (get_clusters_failure pre e k rest log))
      as (Hr & Hi & Hu).
    subst run w. rewrite Hr, Hi, Hu, length_map, listing_kwargs_length. auto.
  - intros cluster_arn pre k rest log run w.
    destruct (run_observed _ _ _ _ _ _
                (get_services_failure cluster_arn pre e k rest log))
      as (Hr & Hi & Hu).
    subst run w. rewrite Hr, Hi, Hu, length_map, listing_kwargs_length. auto.
  - intros cluster_arn service_arn pre k rest log run w.
    destruct (run_observed _ _ _ _ _ _
                (get_tasks_failure cluster_arn service_arn pre e k rest log))
      as (Hr & Hi & Hu).
    subst run w. rewrite Hr, Hi, Hu, length_map, listing_kwargs_length. auto.
  - intros cluster_arn task_arns rs rest log Hlen run w.
    destruct (run_observed _ _ _ _ _ _
                (get_task_details_failure cluster_arn task_arns rs e rest log
                   Hlen))
      as (Hr & Hi & Hu).
    subst run w. rewrite Hr, Hi, Hu, length_map, length_firstn.
    rewrite chunks_of_length by lia. repeat split. lia.
  - intros cluster_arn service_arns rs rest log Hlen run w.
    destruct (run_observed _ _ _ _ _ _
                (get_service_details_failure cluster_arn service_arns rs e
                   rest log Hlen))
      as (Hr & Hi & Hu).
    subst run w. rewrite Hr, Hi, Hu, length_map, length_firstn.
    rewrite chunks_of_length by lia. repeat split. lia.
Qed.

(* ===================================================================== *)
(** * Batched detail fetch *)
(* ===================================================================== *)

Lemma issued_nothing {R A : Type} (a : A) (w : World R) :
  result (ret a) w = Return a /\ issued (ret a) w = [].
Proof.
  unfold result, issued, ret. simpl. split; [reflexivity|].
  apply skipn_all.
Qed.

Lemma get_task_details_run cluster_arn task_arns rs rest log :
  ceil_div (length task_arns) 100 <= length rs ->
  get_task_details cluster_arn task_arns
    {| script := serving rs rest; calls := log |}
  = (Return (concat (map DescribeTasks.tasks
                         (firstn (ceil_div (length task_arns) 100) rs))),
     {| script := serving (skipn (ceil_div (length task_arns) 100) rs) rest;
        calls := log ++ map (describe_tasks cluster_arn)
                            (chunks_of 100 task_arns) |}).
Proof.
  intros Hlen. rewrite get_task_details_scheme.
  rewrite batched_for_serves by (rewrite chunks_of_length by lia; exact Hlen).
  rewrite chunks_of_length by lia. reflexivity.
Qed.

Lemma get_service_details_run cluster_arn service_arns rs rest log :
  ceil_div (length service_arns) 10 <= length rs ->
  get_service_details cluster_arn service_arns
    {| script := serving rs rest; calls := log |}
  = (Return (concat (map DescribeServices.services
                         (firstn (ceil_div (length service_arns) 10) rs))),
     {| script := serving (skipn (ceil_div (length service_arns) 10) rs) rest;
        calls := log ++ map (describe_services cluster_arn)
                            (chunks_of 10 service_arns) |}).
Proof.
  intros Hlen. rewrite get_service_details_scheme.
  rewrite batched_for_serves by (rewrite chunks_of_length by lia; exact Hlen).
  rewrite chunks_of_length by lia. reflexivity.
Qed.

Lemma requested_chunks (fetch : list string -> call) B l :
  (forall ids, requested (fetch ids) = length ids) ->
  List.Forall (fun c => requested c <= B) (map fetch (chunks_of B l)).
Proof.
  intros Hreq. apply List.Forall_forall. intros c Hc.
  apply in_map_iff in Hc as [chunk [<- Hin]]. rewrite Hreq.
  pose proof (chunks_of_bounded B l) as Hall.
  rewrite List.Forall_forall in Hall. now apply Hall.
Qed.

(** C2.  For task identifiers [task_arns] of length [L] and a client
    that answers the calls it gets, [get_task_details] makes exactly
    [ceil(L / 100)] calls -- the number [n] with [L <= n * 100 < L + 100]
    -- each asking for at most 100 identifiers, and returns the detail
    lists of the [n] responses concatenated in the order of the chunks;
    [get_service_details] does the same with 10 in place of 100.  On the
    empty list both return the empty list without any call, whatever the
    client would have answered. *)
Theorem batched_detail_fetch_calls :
  (forall cluster_arn task_arns rs rest log,
      ceil_div (length task_arns) 100 <= length rs ->
      let n := ceil_div (length task_arns) 100 in
      let run := get_task_details cluster_arn task_arns in
      let w := {| script := serving rs rest; calls := log |} in
      length (issued run w) = n
      /\ length task_arns <= n * 100 < length task_arns + 100
      /\ List.Forall (fun c => requested c <= 100) (issued run w)
      /\ result run w = Return (concat (map DescribeTasks.tasks (firstn n rs)))
      /\ unserved run w = serving (skipn n rs) rest)
  /\ (forall cluster_arn service_arns rs rest log,
      ceil_div (length service_arns) 10 <= length rs ->
      let n := ceil_div (length service_arns) 10 in
      let run := get_service_details cluster_arn service_arns in
      let w := {| script := serving rs rest; calls := log |} in
      length (issued run w) = n
      /\ length service_arns <= n * 10 < length service_arns + 10
      /\ List.Forall (fun c => requested c <= 10) (issued run w)
      /\ result run w
         = Return (concat (map DescribeServices.services (firstn n rs)))
      /\ unserved run w = serving (skipn n rs) rest)
  /\ (forall cluster_arn w,
      result (get_task_details cluster_arn []) w = Return []
      /\ issued (get_task_details cluster_arn []) w = [])
  /\ (forall cluster_arn w,
      result (get_service_details cluster_arn []) w = Return []
      /\ issued (get_service_details cluster_arn []) w = []).
Proof.
  repeat apply conj.
  - intros cluster_arn task_arns rs rest log Hlen n run w.
    destruct (run_observed _ _ _ _ _ _
                (get_task_details_run cluster_arn task_arns rs rest log Hlen))
      as (Hr & Hi & Hu).
    subst run w. rewrite Hr, Hi, Hu. repeat apply conj; try reflexivity.
    + rewrite length_map. apply chunks_of_length. lia.
    + apply (ceil_div_spec (length task_arns) 100 n); [lia|reflexivity].
    + apply (ceil_div_spec (length task_arns) 100 n); [lia|reflexivity].
    + now apply requested_chunks.
  - intros cluster_arn service_arns rs rest log Hlen n run w.
    destruct (run_observed _ _ _ _ _ _
                (get_service_details_run cluster_arn service_arns rs rest log
                   Hlen))
      as (Hr & Hi & Hu).
    subst run w. rewrite Hr, Hi, Hu. repeat apply conj; try reflexivity.
    + rewrite length_map. apply chunks_of_length. lia.
    + apply (ceil_div_spec (length service_arns) 10 n); [lia|reflexivity].
    + apply (ceil_div_spec (length service_arns) 10 n); [lia|reflexivity].
    + now apply requested_chunks.
  - intros cluster_arn w. apply (issued_nothing (A := list Task)).
  - intros cluster_arn w. apply (issued_nothing (A := list Service)).
Qed.

(** C3.  The chunks that [get_task_details] asks for, one per call and
    in call order, are runs of consecutive elements of [task_arns]: the
    chunk of index [k] is made of the (at most) 100 elements that start
    at index [k * 100].  Concatenated in order they give [task_arns]
    back, none is longer than 100, and for 250 identifiers their sizes
    are 100, 100 and 50.  [get_service_details] cuts [service_arns] the
    same way, by 10. *)
Theorem batched_detail_fetch_chunks :
  (forall cluster_arn task_arns rs rest log,
      ceil_div (length task_arns) 100 <= length rs ->
      let run := get_task_details cluster_arn task_arns in
      let w := {| script := serving rs rest; calls := log |} in
      exists chunks,
        issued run w = map (describe_tasks cluster_arn) chunks
        /\ concat chunks = task_arns
        /\ List.Forall (fun chunk => length chunk <= 100) chunks
        /\ (forall k chunk, nth_error chunks k = Some chunk ->
                            chunk = firstn 100 (skipn (k * 100) task_arns))
        /\ (length task_arns = 250 -> map length chunks = [100; 100; 50]))
  /\ (forall cluster_arn service_arns rs rest log,
      ceil_div (length service_arns) 10 <= length rs ->
      let run := get_service_details cluster_arn service_arns in
      let w := {| script := serving rs rest; calls := log |} in
      exists chunks,
        issued run w = map (describe_services cluster_arn) chunks
        /\ concat chunks = service_arns
        /\ List.Forall (fun chunk => length chunk <= 10) chunks
        /\ (forall k chunk, nth_error chunks k = Some chunk ->
                            chunk = firstn 10 (skipn (k * 10) service_arns))).
Proof.
  split.
  - intros cluster_arn task_arns rs rest log Hlen run w.
    destruct (run_observed _ _ _ _ _ _
                (get_task_details_run cluster_arn task_arns rs rest log Hlen))
      as (_ & Hi & _).
    exists (chunks_of 100 task_arns). repeat apply conj.
    + exact Hi.
    + apply chunks_of_concat. lia.
    + apply chunks_of_bounded.
    + intros k chunk. apply chunks_of_nth. lia.
    + intros H250. rewrite chunks_of_sizes, H250. reflexivity.
  - intros cluster_arn service_arns rs rest log Hlen run w.
    destruct (run_observed _ _ _ _ _ _
                (get_service_details_run cluster_arn service_arns rs rest log
                   Hlen))
      as (_ & Hi & _).
    exists (chunks_of 10 service_arns). repeat apply conj.
    + exact Hi.
    + apply chunks_of_concat. lia.
    + apply chunks_of_bounded.
    + intros k chunk. apply chunks_of_nth. lia.
Qed.

(** C8.  For a non-empty list of cluster identifiers, of any length,
    [get_cluster_details] makes exactly one call, which asks for the whole
    list at once, and returns the clusters of that one response; for the
    empty list it returns the empty list without any call. *)
Theorem get_cluster_details_single_call :
  (forall a l r rest log,
      let cluster_arns := a :: l in
      let run := get_cluster_details cluster_arns in
      let w := {| script := serving [r] rest; calls := log |} in
      result run w = Return (DescribeClusters.clusters r)
      /\ issued run w = [describe_clusters cluster_arns ["STATISTICS"]]
      /\ unserved run w = rest)
  /\ (forall w,
      result (get_cluster_details []) w = Return []
      /\ issued (get_cluster_details []) w = []).
Proof.
  split.
  - intros a l r rest log cluster_arns run w.
    apply (run_observed run (Return (DescribeClusters.clusters r))).
    reflexivity.
  - intros w. apply (issued_nothing (A := list Cluster)).
Qed.

(* ===================================================================== *)
(** * Status counts *)
(* ===================================================================== *)

Lemma count_status_nil s : count_status s [] = 0.
Proof. reflexivity. Qed.

Lemma count_status_cons s t ts :
  count_status s (t :: ts)
  = (if decide (lastStatus t = s) then 1 else 0) + count_status s ts.
Proof.
  unfold count_status. rewrite filter_cons.
  destruct (decide (lastStatus t = s)); reflexivity.
Qed.

Lemma count_status_pos s ts :
  0 < count_status s ts <-> exists t, In t ts /\ lastStatus t = s.
Proof.
  induction ts as [|t ts IH].
  - rewrite count_status_nil. split; [lia|]. intros [t [[] _]].
  - rewrite count_status_cons. destruct (decide (lastStatus t = s)) as [E|N].
    + split; [|lia]. intros _. exists t. simpl. auto.
    + simpl. rewrite IH. split.
      * intros [t' [Hin Ht']]. exists t'. simpl. auto.
      * intros [t' [[->|Hin] Ht']]; [contradiction|eauto].
Qed.

Lemma status_count_step_lookup (m : gmap string nat) t s :
  status_count_step m t !! s
  = if decide (lastStatus t = s) then Some (default 0 (m !! s) + 1)
    else m !! s.
Proof.
  unfold status_count_step. destruct (decide (lastStatus t = s)) as [<-|N].
  - apply lookup_insert_eq.
  - now apply lookup_insert_ne.
Qed.

(** What the loop leaves at key [s], from any starting map. *)
Lemma status_count_fold_lookup ts :
  forall (m : gmap string nat) s,
    fold_left status_count_step ts m !! s
    = match m !! s, count_status s ts with
      | None, 0 => None
      | o, c => Some (default 0 o + c)
      end.
Proof.
  induction ts as [|t ts IH]; intros m s.
  - simpl. rewrite count_status_nil. destruct (m !! s); simpl; f_equal; lia.
  - simpl. rewrite IH, status_count_step_lookup, count_status_cons.
    destruct (decide (lastStatus t = s)) as [E|N].
    + destruct (m !! s), (count_status s ts); simpl; f_equal; lia.
    + reflexivity.
Qed.

Lemma status_count_of_lookup ts s :
  status_count_of ts !! s
  = match count_status s ts with
    | 0 => None
    | c => Some c
    end.
Proof.
  unfold status_count_of. rewrite status_count_fold_lookup, lookup_empty.
  destruct (count_status s ts); reflexivity.
Qed.

(** The counts depend on the statuses of the records only. *)
Lemma status_count_of_statuses ts ts' :
  map lastStatus ts = map lastStatus ts' ->
  status_count_of ts = status_count_of ts'.
Proof.
  unfold status_count_of. generalize (∅ : gmap string nat).
  revert ts'. induction ts as [|t ts IH]; intros [|t' ts'] m E;
    try discriminate; [reflexivity|].
  simpl in E. injection E as Et Ets. simpl.
  unfold status_count_step at 2 4. rewrite Et. now apply IH.
Qed.

Lemma total_empty : total ∅ = 0.
Proof. reflexivity. Qed.

Lemma total_insert_fresh (m : gmap string nat) k v :
  m !! k = None -> total (<[k := v]> m) = v + total m.
Proof.
  intros Hk. unfold total. rewrite map_fold_insert_L; [reflexivity| |exact Hk].
  intros. lia.
Qed.

Lemma total_insert (m : gmap string nat) k v :
  total (<[k := v]> m) + default 0 (m !! k) = v + total m.
Proof.
  destruct (m !! k) as [old|] eqn:Hk; simpl.
  - rewrite <- insert_delete_eq.
    rewrite total_insert_fresh by apply lookup_delete_eq.
    rewrite <- (insert_delete_id m k old Hk) at 2.
    rewrite total_insert_fresh by apply lookup_delete_eq. lia.
  - rewrite total_insert_fresh by exact Hk. lia.
Qed.

Lemma total_step (m : gmap string nat) t :
  total (status_count_step m t) = S (total m).
Proof.
  unfold status_count_step.
  pose proof (total_insert m (lastStatus t)
                (default 0 (m !! lastStatus t) + 1)). lia.
Qed.

Lemma total_fold ts :
  forall m : gmap string nat,
    total (fold_left status_count_step ts m) = total m + length ts.
Proof.
  induction ts as [|t ts IH]; intros m; simpl.
  - lia.
  - rewrite IH, total_step. lia.
Qed.

(** C4.  The map computed by the counting loop holds, at every status
    string [s] -- whatever that string is -- the number of records whose
    status is [s]: reading it as the [defaultdict] it is gives that
    number, and its keys are exactly the statuses that number is positive
    for.  For records with the statuses RUNNING, RUNNING, PENDING,
    STOPPED, RUNNING the map is RUNNING: 3, PENDING: 1, STOPPED: 1. *)
Theorem status_count_counts_each_status :
  (forall task_details s,
      default 0 (status_count_of task_details !! s)
      = count_status s task_details)
  /\ (forall task_details s n,
      status_count_of task_details !! s = Some n
      <-> n = count_status s task_details /\ 0 < n)
  /\ (forall task_details,
      map lastStatus task_details
      = ["RUNNING"; "RUNNING"; "PENDING"; "STOPPED"; "RUNNING"] ->
      status_count_of task_details
      = <["RUNNING" := 3]> (<["PENDING" := 1]> (<["STOPPED" := 1]> ∅))).
Proof.
  repeat apply conj.
  - intros ts s. rewrite status_count_of_lookup.
    destruct (count_status s ts); reflexivity.
  - intros ts s n. rewrite status_count_of_lookup.
    destruct (count_status s ts) as [|c]; split.
    + discriminate.
    + intros [-> H]. lia.
    + intros [= <-]. split; [reflexivity|lia].
    + intros [-> _]. reflexivity.
  - intros ts Hts.
    rewrite (status_count_of_statuses ts
               (map with_status
                    ["RUNNING"; "RUNNING"; "PENDING"; "STOPPED"; "RUNNING"])).
    + vm_compute. reflexivity.
    + rewrite Hts. reflexivity.
Qed.

(** C9.  For every list of records, the counts of the map add up to the
    number of records, every key of the map is the status of some record
    of the list, and every count is at least 1. *)
Theorem status_count_invariants :
  forall task_details,
    total (status_count_of task_details) = length task_details
    /\ (forall s n,
        status_count_of task_details !! s = Some n ->
        (exists t, In t task_details /\ lastStatus t = s) /\ 1 <= n).
Proof.
  intros ts. split.
  - unfold status_count_of. rewrite total_fold, total_empty. reflexivity.
  - intros s n Hn. rewrite status_count_of_lookup in Hn.
    destruct (count_status s ts) as [|c] eqn:Hc; [discriminate|].
    injection Hn as <-. split; [|lia].
    apply count_status_pos. lia.
Qed.

(* ===================================================================== *)
(** * truncate_string *)
(* ===================================================================== *)

Lemma substring_0_prefix n s :
  exists rest, s = (String.substring 0 n s ++ rest)%string.
Proof.
  revert n. induction s as [|c s IH]; intros [|n]; simpl.
  - now exists "".
  - now exists "".
  - now exists (String c s).
  - destruct (IH n) as [rest Hrest]. exists rest.
    change (String c s = String c (String.substring 0 n s ++ rest)%string).
    f_equal. exact Hrest.
Qed.

Lemma str_upto_prefix {A : Type} (s : list A) k :
  exists rest, s = Py.str_upto s k ++ rest.
Proof.
  unfold Py.str_upto. destruct (k <? 0)%Z; eexists; symmetry;
    apply firstn_skipn.
Qed.

Lemma str_upto_length {A : Type} (s : list A) k :
  (k <= Z.of_nat (length s))%Z ->
  Z.of_nat (length (Py.str_upto s k))
  = (if (k <? 0)%Z then Z.max 0 (Z.of_nat (length s) + k) else k).
Proof.
  intros Hk. unfold Py.str_upto.
  destruct (Z.ltb_spec k 0); rewrite length_firstn; lia.
Qed.

(** C10.  For every string, taken as the list of its code points, and
    a limit of at least 3, [truncate_string] returns a string no longer
    than the limit as it is; a longer one it replaces by a string of
    exactly [max_length] characters, made of the first [max_length - 3]
    characters of [s] followed by three dots. *)
Theorem truncate_string_spec :
  forall (s : text) (max_length : Z),
    (3 <= max_length)%Z ->
    ((Z.of_nat (length s) <= max_length)%Z ->
     truncate_string s max_length = s)
    /\ ((max_length < Z.of_nat (length s))%Z ->
        exists p rest,
          truncate_string s max_length = p ++ ellipsis
          /\ Z.of_nat (length p) = (max_length - 3)%Z
          /\ s = p ++ rest
          /\ Z.of_nat (length (truncate_string s max_length)) = max_length).
Proof.
  intros s max_length Hmax. unfold truncate_string. split.
  - intros Hle. destruct (Z.leb_spec (Z.of_nat (length s)) max_length);
      [reflexivity|lia].
  - intros Hlt. destruct (Z.leb_spec (Z.of_nat (length s)) max_length);
      [lia|].
    pose proof (str_upto_length s (max_length - 3) ltac:(lia)) as Hn.
    destruct (Z.ltb_spec (max_length - 3) 0); [lia|].
    destruct (str_upto_prefix s (max_length - 3)) as [rest Hrest].
    exists (Py.str_upto s (max_length - 3)), rest. repeat apply conj.
    + reflexivity.
    + exact Hn.
    + exact Hrest.
    + rewrite length_app, Nat2Z.inj_add, Hn. simpl. lia.
Qed.

(* ===================================================================== *)
(** * The functions on concrete inputs *)
(* ===================================================================== *)

Example range_250 : Py.range 0 250 100 = [0; 100; 200].
Proof. reflexivity. Qed.

Example range_200 : Py.range 0 200 100 = [0; 100].
Proof. reflexivity. Qed.

Example range_empty : Py.range 0 0 10 = [].
Proof. reflexivity. Qed.

Example chunks_of_7_by_3 :
  chunks_of 3 [1; 2; 3; 4; 5; 6; 7] = [[1; 2; 3]; [4; 5; 6]; [7]].
Proof. reflexivity. Qed.

Example truncate_long :
  truncate_string (text_of "abcdefghij") 8 = text_of "abcde...".
Proof. reflexivity. Qed.

Example truncate_short : truncate_string (text_of "abc") 50 = text_of "abc".
Proof. reflexivity. Qed.

(** Five code points, the second one above 127: not cut at limit 5. *)
Example truncate_accented :
  truncate_string [104; 233; 108; 108; 111]%N 5 = [104; 233; 108; 108; 111]%N.
Proof. reflexivity. Qed.

(** Three code points above 255: not cut at limit 3, cut at limit 2
    only by the slice that counts from the end. *)
Example truncate_wide :
  truncate_string [26085; 26412; 35486]%N 3 = [26085; 26412; 35486]%N.
Proof. reflexivity. Qed.

Example truncate_accented_long :
  truncate_string [104; 233; 108; 108; 111; 33]%N 5
  = [104; 233; 46; 46; 46]%N.
Proof. reflexivity. Qed.

Example get_clusters_three_pages :
  get_clusters 3
    (fresh (serving [clusters_page (["a"; "b"], "t1");
                     clusters_page (["c"], "t2");
                     clusters_last ["d"]] []))
  = (Return ["a"; "b"; "c"; "d"],
     {| script := [];
        calls := [list_clusters None; list_clusters (Some "t1");
                  list_clusters (Some "t2")] |}).
Proof. reflexivity. Qed.

Example get_tasks_of_service :
  issued (get_tasks 2 "c" (Some "svc"))
    (fresh (serving [tasks_page (["a"], "t1"); tasks_last ["b"]] []))
  = [list_tasks "c" (Some "svc") None; list_tasks "c" (Some "svc") (Some "t1")].
Proof. reflexivity. Qed.

Example get_clusters_endless :
  result (get_clusters 2)
    (fresh (serving [clusters_page (["a"], "t1");
                     clusters_page (["b"], "t2")] []))
  = OutOfFuel.
Proof. reflexivity. Qed.

Example get_service_details_25 :
  map requested
    (issued (get_service_details "c" (repeat "svc" 25))
       (fresh (serving (repeat {| DescribeServices.services := [] |} 3) [])))
  = [10; 10; 5].
Proof. reflexivity. Qed.

Lemma paginated_listing_returns_all_pages_witness :
  In "svc-3" (all_ids [(["svc-1"; "svc-2"], "tok-1")] ["svc-3"])
  /\ (In "svc-3" ["svc-3"]
      \/ exists p, In p [(["svc-1"; "svc-2"], "tok-1")] /\ In "svc-3" (fst p)).
Proof.
  assert (H : In "svc-3" (all_ids [(["svc-1"; "svc-2"], "tok-1")] ["svc-3"])).
  { simpl. auto. }
  split; [exact H|].
  exact (proj2 (proj2 (proj2 (proj2
    (paginated_listing_returns_all_pages
       [(["svc-1"; "svc-2"], "tok-1")] ["svc-3"] 0)))) "svc-3" H).
Defined.

Lemma batched_detail_fetch_calls_witness :
  let rs := repeat {| DescribeTasks.tasks := [with_status "RUNNING"] |} 3 in
  ceil_div (length (repeat "task" 250)) 100 <= length rs
  /\ length (issued (get_task_details "c" (repeat "task" 250))
               (fresh (serving rs [])))
     = 3.
Proof.
  intros rs.
  assert (H : ceil_div (length (repeat "task" 250)) 100 <= length rs).
  { vm_compute. lia. }
  split; [exact H|].
  exact (proj1 (proj1 batched_detail_fetch_calls
                  "c" (repeat "task" 250) rs [] [] H)).
Defined.

Lemma batched_detail_fetch_chunks_witness :
  let rs := repeat {| DescribeTasks.tasks := [] |} 3 in
  ceil_div (length (repeat "task" 250)) 100 <= length rs
  /\ length (repeat "task" 250) = 250
  /\ exists chunks,
      issued (get_task_details "c" (repeat "task" 250)) (fresh (serving rs []))
      = map (describe_tasks "c") chunks
      /\ map length chunks = [100; 100; 50].
Proof.
  intros rs.
  assert (H : ceil_div (length (repeat "task" 250)) 100 <= length rs).
  { vm_compute. lia. }
  assert (H250 : length (repeat "task" 250) = 250) by reflexivity.
  split; [exact H|]. split; [exact H250|].
  destruct (proj1 batched_detail_fetch_chunks
              "c" (repeat "task" 250) rs [] [] H)
    as (chunks & Hi & _ & _ & _ & Hsizes).
  exists chunks. split; [exact Hi | exact (Hsizes H250)].
Defined.

Lemma status_count_counts_each_status_witness :
  let ts := map with_status
                ["RUNNING"; "RUNNING"; "PENDING"; "STOPPED"; "RUNNING"] in
  map lastStatus ts = ["RUNNING"; "RUNNING"; "PENDING"; "STOPPED"; "RUNNING"]
  /\ status_count_of ts
     = <["RUNNING" := 3]> (<["PENDING" := 1]> (<["STOPPED" := 1]> ∅)).
Proof.
  intros ts.
  assert (H : map lastStatus ts
              = ["RUNNING"; "RUNNING"; "PENDING"; "STOPPED"; "RUNNING"])
    by reflexivity.
  split; [exact H|].
  exact (proj2 (proj2 status_count_counts_each_status) ts H).
Defined.

Lemma remote_failure_propagates_witness :
  let e := ClientError "AccessDeniedException" "not authorized" in
  let rs := [{| DescribeTasks.tasks := [with_status "RUNNING"] |}] in
  length rs < ceil_div (length (repeat "task" 250)) 100
  /\ result (get_task_details "c" (repeat "task" 250))
       (fresh (failing_after rs e []))
     = Raise e.
Proof.
  intros e rs.
  assert (H : length rs < ceil_div (length (repeat "task" 250)) 100).
  { vm_compute. lia. }
  split; [exact H|].
  exact (proj1 (proj1 (proj2 (proj2 (proj2 (remote_failure_propagates e))))
                  "c" (repeat "task" 250) rs [] [] H)).
Defined.

Lemma status_count_invariants_witness :
  let ts := [with_status "RUNNING"; with_status "STOPPED";
             with_status "RUNNING"] in
  status_count_of ts !! "RUNNING" = Some 2
  /\ (exists t, In t ts /\ lastStatus t = "RUNNING")
  /\ 1 <= 2.
Proof.
  intros ts.
  assert (H : status_count_of ts !! "RUNNING" = Some 2).
  { vm_compute. reflexivity. }
  split; [exact H|].
  exact (proj2 (status_count_invariants ts) "RUNNING" 2 H).
Defined.

Lemma truncate_string_spec_witness :
  let s := [104; 233; 108; 108; 111; 32; 26085; 26412; 35486; 33]%N in
  (3 <= 8)%Z
  /\ (8 < Z.of_nat (length s))%Z
  /\ exists p rest,
      truncate_string s 8 = p ++ ellipsis
      /\ Z.of_nat (length p) = (8 - 3)%Z
      /\ s = p ++ rest
      /\ Z.of_nat (length (truncate_string s 8)) = 8%Z.
Proof.
  intros s.
  assert (H3 : (3 <= 8)%Z) by lia.
  assert (Hlt : (8 < Z.of_nat (length s))%Z).
  { vm_compute. reflexivity. }
  split; [exact H3|]. split; [exact Hlt|].
  exact (proj2 (truncate_string_spec s 8 H3) Hlt).
Defined.

(* ===================================================================== *)
(** * Strings: joining, splitting, cutting *)
(* ===================================================================== *)

Lemma string_app_cons c (s r : string) :
  (String c s ++ r)%string = String c (s ++ r)%string.
Proof. reflexivity. Qed.

Lemma string_app_nil_l (r : string) : ("" ++ r)%string = r.
Proof. reflexivity. Qed.

Lemma substring_0_all s : String.substring 0 (String.length s) s = s.
Proof. induction s as [|c s IH]; simpl; [reflexivity|now rewrite IH]. Qed.

Lemma occurs_app c (s r : string) :
  occurs c (s ++ r)%string = occurs c s || occurs c r.
Proof.
  induction s as [|c' s IH]; [reflexivity|].
  rewrite string_app_cons. simpl. rewrite IH. now rewrite orb_assoc.
Qed.

Lemma str_split_not_nil sep s : str_split sep s <> [].
Proof.
  destruct s as [|c s]; simpl; [discriminate|].
  destruct (Ascii.eqb c sep); [discriminate|].
  destruct (str_split sep s); discriminate.
Qed.

(** The pieces of a split, seen from the right: the last piece is free
    of the separator and is what follows its last occurrence. *)
Lemma str_split_last sep s :
  exists pieces name,
    str_split sep s = pieces ++ [name]
    /\ occurs sep name = false
    /\ ((pieces = [] /\ s = name)
        \/ (pieces <> [] /\ exists p, s = (p ++ String sep name)%string)).
Proof.
  induction s as [|c s (pieces & name & Hsplit & Hfree & Hshape)].
  - exists [], "". repeat split. now left.
  - simpl. destruct (Ascii.eqb_spec c sep) as [->|Hc].
    + exists ("" :: pieces), name. rewrite Hsplit. repeat split; [assumption|].
      right. split; [discriminate|].
      destruct Hshape as [[_ ->]|[_ [p ->]]].
      * now exists "".
      * now exists (String sep p).
    + rewrite Hsplit. destruct Hshape as [[-> ->]|[Hne [p ->]]].
      * exists [], (String c name). simpl. repeat split.
        -- destruct (Ascii.eqb_spec c sep); [contradiction|assumption].
        -- now left.
      * destruct pieces as [|q qs]; [contradiction|].
        exists (String c q :: qs), name. repeat split; [assumption|].
        right. split; [discriminate|]. now exists (String c p).
Qed.

Lemma str_split_app sep (p q : string) :
  str_split sep (p ++ String sep q)%string
  = str_split sep p ++ str_split sep q.
Proof.
  induction p as [|c p IH].
  - rewrite string_app_nil_l. simpl. now rewrite Ascii.eqb_refl.
  - rewrite string_app_cons. simpl. rewrite IH.
    destruct (Ascii.eqb c sep); [reflexivity|].
    destruct (str_split sep p) as [|piece pieces] eqn:E; [|reflexivity].
    now apply str_split_not_nil in E.
Qed.

Lemma str_split_free sep s : occurs sep s = false -> str_split sep s = [s].
Proof.
  induction s as [|c s IH]; [reflexivity|]. simpl. intros H.
  apply orb_false_elim in H as [Hc Hs]. rewrite Hc, (IH Hs). reflexivity.
Qed.

Lemma getitem_last {A : Type} (l : list A) (x : A) :
  getitem (l ++ [x]) (-1) = Some x.
Proof.
  unfold getitem. rewrite length_app. simpl.
  destruct (Z.leb_spec (- Z.of_nat (length l + 1)) (-1)); [|lia].
  replace (Z.to_nat (Z.of_nat (length l + 1) + -1)) with (length l + 0)
    by lia.
  rewrite nth_error_app2 by lia.
  replace (length l + 0 - length l) with 0 by lia. reflexivity.
Qed.

(** X1.  The name taken from an identifier by [arn.split('/')[-1]] is
    always there -- the subscript never raises -- it holds no slash, and
    it is the whole identifier when that holds no slash, and what
    follows the last slash otherwise. *)
Theorem last_segment_is_the_part_after_the_last_slash :
  forall arn,
    exists name,
      last_segment arn = Some name
      /\ occurs "/" name = false
      /\ (if occurs "/" arn
          then exists p, arn = (p ++ "/" ++ name)%string
          else arn = name).
Proof.
  intros arn.
  destruct (str_split_last "/" arn) as (pieces & name & Hsplit & Hfree & Hshape).
  exists name. unfold last_segment. rewrite Hsplit, getitem_last.
  repeat split; [assumption|].
  destruct Hshape as [[_ ->]|[_ [p ->]]].
  - now rewrite Hfree.
  - rewrite occurs_app. simpl. rewrite orb_true_r. now exists p.
Qed.

(** X2.  Taking the name apart from what was put together: for a name
    without slash, the last segment of [prefix/name] is [name], and the
    last segment of [name] alone is [name]. *)
Theorem last_segment_of_a_path :
  forall p name,
    occurs "/" name = false ->
    last_segment (p ++ "/" ++ name) = Some name
    /\ last_segment name = Some name.
Proof.
  intros p name Hfree. unfold last_segment. split.
  - change (p ++ "/" ++ name)%string with (p ++ String "/" name)%string.
    rewrite str_split_app, (str_split_free _ _ Hfree).
    apply getitem_last.
  - rewrite (str_split_free _ _ Hfree). apply (getitem_last []).
Qed.

Lemma shown_group_strips name : shown_group ("service:" ++ name) = name.
Proof.
  unfold shown_group, str_from.
  change ("service:" ++ name)%string
    with (String "s" (String "e" (String "r" (String "v"
           (String "i" (String "c" (String "e" (String ":" name)))))))).
  cbn [String.prefix String.length String.substring Nat.sub].
  repeat (destruct (ascii_dec _ _) as [_|N]; [|now elim N]).
  destruct name; cbn [String.prefix]; rewrite Nat.sub_0_r;
    apply substring_0_all.
Qed.

(** X3.  The group shown for a task: a group that starts with
    [service:] is shown without exactly that prefix -- the 8 characters
    cut are the prefix, no more and no less -- and any other group is
    shown as it is. *)
Theorem shown_group_drops_the_service_prefix :
  (forall name, shown_group ("service:" ++ name) = name)
  /\ (forall group,
        String.prefix "service:" group = true ->
        group = ("service:" ++ shown_group group)%string)
  /\ (forall group,
        String.prefix "service:" group = false ->
        shown_group group = group).
Proof.
  repeat apply conj.
  - apply shown_group_strips.
  - intros group Hp. apply String.prefix_correct in Hp. simpl in Hp.
    destruct (substring_0_prefix 8 group) as [rest Hrest].
    rewrite Hp in Hrest. rewrite Hrest at 2. now rewrite shown_group_strips.
  - intros group Hp. unfold shown_group. now rewrite Hp.
Qed.

(* ===================================================================== *)
(** * truncate_string, once more *)
(* ===================================================================== *)

Lemma truncate_string_length (s : text) max_length :
  (3 <= max_length)%Z ->
  (Z.of_nat (length (truncate_string s max_length)) <= max_length)%Z.
Proof.
  intros Hmax. unfold truncate_string.
  destruct (Z.leb_spec (Z.of_nat (length s)) max_length); [assumption|].
  rewrite length_app, Nat2Z.inj_add, str_upto_length by lia.
  destruct (Z.ltb_spec (max_length - 3) 0); simpl; lia.
Qed.

(** X4.  For a limit of at least 3, what [truncate_string] returns
    fits the limit, so that truncating it again with the same limit
    changes nothing. *)
Theorem truncate_string_idempotent :
  forall (s : text) max_length,
    (3 <= max_length)%Z ->
    (Z.of_nat (length (truncate_string s max_length)) <= max_length)%Z
    /\ truncate_string (truncate_string s max_length) max_length
       = truncate_string s max_length.
Proof.
  intros s max_length Hmax.
  pose proof (truncate_string_length s max_length Hmax) as Hlen.
  split; [exact Hlen|].
  unfold truncate_string at 1.
  destruct (Z.leb_spec
              (Z.of_nat (length (truncate_string s max_length)))
              max_length); [reflexivity|lia].
Qed.

(** X5.  Below 3 the limit is not kept.  For a limit under 3 and a
    string longer than the limit, the slice [s[:max_length-3]] counts
    from the end of [s]: the result is [s] without its last
    [3 - max_length] characters, followed by three dots, and it is
    longer than the limit -- for a limit from 0 to 2 and a string of at
    least 3 characters it is even longer than [s] itself, by
    [max_length] characters. *)
Theorem truncate_string_below_three :
  forall (s : text) max_length,
    (max_length < 3)%Z ->
    (max_length < Z.of_nat (length s))%Z ->
    let r := truncate_string s max_length in
    (exists p rest, r = p ++ ellipsis /\ s = p ++ rest)
    /\ Z.of_nat (length r)
       = (Z.max 0 (Z.of_nat (length s) + max_length - 3) + 3)%Z
    /\ (max_length < Z.of_nat (length r))%Z.
Proof.
  intros s max_length Hmax Hlong r. subst r. unfold truncate_string.
  destruct (Z.leb_spec (Z.of_nat (length s)) max_length); [lia|].
  assert (Hlen : Z.of_nat (length (Py.str_upto s (max_length - 3)))
                 = Z.max 0 (Z.of_nat (length s) + max_length - 3)).
  { rewrite str_upto_length by lia.
    destruct (Z.ltb_spec (max_length - 3) 0); lia. }
  repeat apply conj.
  - destruct (str_upto_prefix s (max_length - 3)) as [rest Hrest].
    exists (Py.str_upto s (max_length - 3)), rest.
    split; [reflexivity|exact Hrest].
  - rewrite length_app, Nat2Z.inj_add, Hlen. simpl. lia.
  - rewrite length_app, Nat2Z.inj_add, Hlen. simpl. lia.
Qed.

(* ===================================================================== *)
(** * Chunks, once more *)
(* ===================================================================== *)

Lemma chunks_of_full {A : Type} B (l : list A) k chunk :
  0 < B ->
  nth_error (chunks_of B l) k = Some chunk ->
  S k < length (chunks_of B l) ->
  length chunk = B.
Proof.
  intros HB Hk Hlast. rewrite chunks_of_length in Hlast by assumption.
  apply chunks_of_nth in Hk; [|assumption]. subst chunk.
  rewrite length_firstn, length_skipn.
  destruct (proj1 (ceil_div_spec (length l) B _ HB) eq_refl) as [_ Hup].
  nia.
Qed.

Lemma chunks_of_not_empty {A : Type} B (l : list A) k chunk :
  0 < B ->
  nth_error (chunks_of B l) k = Some chunk ->
  1 <= length chunk.
Proof.
  intros HB Hk.
  assert (Hlt : k < length (chunks_of B l)).
  { apply nth_error_Some. congruence. }
  rewrite chunks_of_length in Hlt by assumption.
  apply chunks_of_nth in Hk; [|assumption]. subst chunk.
  rewrite length_firstn, length_skipn.
  destruct (proj1 (ceil_div_spec (length l) B _ HB) eq_refl) as [_ Hup].
  nia.
Qed.

Lemma length_concat_sum {A : Type} (ls : list (list A)) :
  length (concat ls) = list_sum (map (@length A) ls).
Proof.
  induction ls as [|l ls IH]; [reflexivity|].
  simpl. now rewrite length_app, IH.
Qed.

Lemma chunk_sizes {A : Type} B (l : list A) :
  0 < B ->
  let sizes := map (@length A) (chunks_of B l) in
  (forall k n, nth_error sizes k = Some n -> 1 <= n <= B)
  /\ (forall k n, nth_error sizes k = Some n -> S k < length sizes -> n = B)
  /\ list_sum sizes = length l.
Proof.
  intros HB sizes. subst sizes. repeat apply conj.
  - intros k n Hk. rewrite nth_error_map in Hk.
    destruct (nth_error (chunks_of B l) k) as [chunk|] eqn:E; [|discriminate].
    injection Hk as <-. split.
    + now apply (chunks_of_not_empty B l k).
    + pose proof (chunks_of_bounded B l) as Hall.
      rewrite List.Forall_forall in Hall. apply Hall.
      now apply nth_error_In in E.
  - intros k n Hk Hlast. rewrite nth_error_map in Hk.
    rewrite length_map in Hlast.
    destruct (nth_error (chunks_of B l) k) as [chunk|] eqn:E; [|discriminate].
    injection Hk as <-. now apply (chunks_of_full B l k).
  - rewrite <- length_concat_sum, chunks_of_concat by assumption.
    reflexivity.
Qed.

(** X6.  The sizes of the requests of a batched detail fetch, when the
    client answers: no call asks for nothing and none for more than the
    limit, every call but the last asks for exactly the limit, and the
    sizes add up to the number of identifiers given -- each identifier
    is asked for once.  The limit is 100 for [get_task_details] and 10
    for [get_service_details]. *)
Theorem batched_requests_are_full_but_the_last :
  (forall cluster_arn task_arns rs rest log,
      ceil_div (length task_arns) 100 <= length rs ->
      let run := get_task_details cluster_arn task_arns in
      let w := {| script := serving rs rest; calls := log |} in
      let sizes := map requested (issued run w) in
      (forall k n, nth_error sizes k = Some n -> 1 <= n <= 100)
      /\ (forall k n, nth_error sizes k = Some n ->
                      S k < length sizes -> n = 100)
      /\ list_sum sizes = length task_arns)
  /\ (forall cluster_arn service_arns rs rest log,
      ceil_div (length service_arns) 10 <= length rs ->
      let run := get_service_details cluster_arn service_arns in
      let w := {| script := serving rs rest; calls := log |} in
      let sizes := map requested (issued run w) in
      (forall k n, nth_error sizes k = Some n -> 1 <= n <= 10)
      /\ (forall k n, nth_error sizes k = Some n ->
                      S k < length sizes -> n = 10)
      /\ list_sum sizes = length service_arns).
Proof.
  split.
  - intros cluster_arn task_arns rs rest log Hlen run w sizes.
    destruct (run_observed _ _ _ _ _ _
                (get_task_details_run cluster_arn task_arns rs rest log Hlen))
      as (_ & Hi & _).
    subst sizes run w. rewrite Hi, map_map. simpl.
    apply (chunk_sizes 100 task_arns). lia.
  - intros cluster_arn service_arns rs rest log Hlen run w sizes.
    destruct (run_observed _ _ _ _ _ _
                (get_service_details_run cluster_arn service_arns rs rest log
                   Hlen))
      as (_ & Hi & _).
    subst sizes run w. rewrite Hi, map_map. simpl.
    apply (chunk_sizes 10 service_arns). lia.
Qed.

(* ===================================================================== *)
(** * Whatever the client does *)
(* ===================================================================== *)

Lemma issued_appended {R A : Type} (m : M R A) (w : World R) cs :
  calls (snd (m w)) = calls w ++ cs -> issued m w = cs.
Proof.
  intros E. unfold issued. rewrite E, skipn_app, Nat.sub_diag, skipn_all.
  reflexivity.
Qed.

Section AnyClient.

Context {R D : Type}.
Variable request : option string -> call.
Variable items : R -> list string.
Variable token : R -> option string.
Variable fetch : list string -> call.
Variable records : R -> list D.

(** The listing loop only ever appends calls built by [request], the
    first of them with the keyword of the token it starts from. *)
Lemma paginated_loop_calls fuel :
  forall acc x w,
    exists ks,
      calls (snd (paginated_loop request items token fuel acc x w))
      = calls w ++ map request ks
      /\ (fuel <> 0 -> exists ks', ks = token_kwarg x :: ks').
Proof.
  induction fuel as [|fuel IH]; intros acc x w.
  - exists []. simpl. rewrite app_nil_r. split; [reflexivity|congruence].
  - cbn [paginated_loop]. unfold bind, invoke.
    destruct (script w) as [|[e|r] rest] eqn:Hs; simpl.
    + exists [token_kwarg x]. eauto.
    + exists [token_kwarg x]. eauto.
    + destruct (token r) as [t|].
      * destruct (IH (acc ++ items r) (Some t)
                     {| script := rest;
                        calls := calls w ++ [request (token_kwarg x)] |})
          as (ks & Hks & _).
        exists (token_kwarg x :: ks). rewrite Hks. simpl.
        rewrite <- app_assoc. eauto.
      * exists [token_kwarg x]. eauto.
Qed.

(** The batched loop asks for the chunks in order and stops at the
    first call that raises; when it returns, every chunk was asked for. *)
Lemma batched_for_calls chunks :
  forall acc w,
    exists n,
      n <= length chunks
      /\ calls (snd (batched_for fetch records chunks acc w))
         = calls w ++ map fetch (firstn n chunks)
      /\ (forall ds, fst (batched_for fetch records chunks acc w) = Return ds ->
                     n = length chunks)
      /\ fst (batched_for fetch records chunks acc w) <> OutOfFuel.
Proof.
  induction chunks as [|chunk chunks IH]; intros acc w.
  - exists 0. simpl. rewrite app_nil_r. repeat split; [lia|discriminate].
  - cbn [batched_for]. unfold bind, invoke.
    destruct (script w) as [|[e|r] rest] eqn:Hs; simpl.
    + exists 1. repeat split; [lia|discriminate..].
    + exists 1. repeat split; [lia|discriminate..].
    + destruct (IH (acc ++ records r)
                   {| script := rest; calls := calls w ++ [fetch chunk] |})
        as (n & Hn & Hcalls & Hret & Hfuel).
      exists (S n). rewrite Hcalls. simpl. rewrite <- app_assoc.
      repeat split; [lia| |assumption].
      intros ds Hds. f_equal. now apply (Hret ds).
Qed.

End AnyClient.

(** X7.  Whatever the client answers, raises or runs out of,
    [get_task_details] asks for the chunks of [task_arns] in their
    order, each at most once, and for nothing else: the calls it makes
    are the calls for the first [n] chunks, for some [n]; when it
    returns a list, [n] is the number of chunks.  It always ends, in a
    list or in an exception.  [get_service_details] does the same by
    10. *)
Theorem batched_calls_follow_the_chunks :
  (forall cluster_arn task_arns w,
      let run := get_task_details cluster_arn task_arns in
      exists n,
        issued run w
        = map (describe_tasks cluster_arn) (firstn n (chunks_of 100 task_arns))
        /\ (forall ds, result run w = Return ds ->
                       issued run w
                       = map (describe_tasks cluster_arn)
                             (chunks_of 100 task_arns))
        /\ result run w <> OutOfFuel)
  /\ (forall cluster_arn service_arns w,
      let run := get_service_details cluster_arn service_arns in
      exists n,
        issued run w
        = map (describe_services cluster_arn)
              (firstn n (chunks_of 10 service_arns))
        /\ (forall ds, result run w = Return ds ->
                       issued run w
                       = map (describe_services cluster_arn)
                             (chunks_of 10 service_arns))
        /\ result run w <> OutOfFuel).
Proof.
  split.
  - intros cluster_arn task_arns w run.
    destruct (batched_for_calls (describe_tasks cluster_arn)
                DescribeTasks.tasks (chunks_of 100 task_arns) [] w)
      as (n & Hn & Hcalls & Hret & Hfuel).
    rewrite <- get_task_details_scheme in Hcalls, Hret, Hfuel.
    apply issued_appended in Hcalls. exists n. repeat split.
    + exact Hcalls.
    + intros ds Hds. subst run. rewrite Hcalls, (Hret ds Hds).
      now rewrite firstn_all.
    + exact Hfuel.
  - intros cluster_arn service_arns w run.
    destruct (batched_for_calls (describe_services cluster_arn)
                DescribeServices.services (chunks_of 10 service_arns) [] w)
      as (n & Hn & Hcalls & Hret & Hfuel).
    rewrite <- get_service_details_scheme in Hcalls, Hret, Hfuel.
    apply issued_appended in Hcalls. exists n. repeat split.
    + exact Hcalls.
    + intros ds Hds. subst run. rewrite Hcalls, (Hret ds Hds).
      now rewrite firstn_all.
    + exact Hfuel.
Qed.

(* ===================================================================== *)
(** * Tokens and filters on the wire *)
(* ===================================================================== *)

Lemma listing_kwargs_nonempty (pre : list page) :
  List.Forall (fun p : page => snd p <> "") pre ->
  listing_kwargs pre = None :: map (fun p => Some (snd p)) pre.
Proof.
  intros Hne. unfold listing_kwargs. f_equal.
  apply map_ext_in. intros p Hp. apply token_kwarg_nonempty.
  rewrite List.Forall_forall in Hne. now apply Hne.
Qed.

(** X8.  When no page carries the empty string as its token, the calls
    of a listing are: a first call without token, then, for each page
    that carries a token, one call with exactly that token -- in the
    order of the pages, for [get_clusters], [get_services] and
    [get_tasks] alike. *)
Theorem nonempty_tokens_are_passed_back :
  forall (pre : list page) (last : list string) k,
    List.Forall (fun p : page => snd p <> "") pre ->
    (forall rest log,
        map next_token_of
          (issued (get_clusters (S (length pre) + k))
             {| script := serving (map clusters_page pre
                                     ++ [clusters_last last]) rest;
                calls := log |})
        = None :: map (fun p => Some (snd p)) pre)
    /\ (forall cluster_arn rest log,
        map next_token_of
          (issued (get_services (S (length pre) + k) cluster_arn)
             {| script := serving (map services_page pre
                                     ++ [services_last last]) rest;
                calls := log |})
        = None :: map (fun p => Some (snd p)) pre)
    /\ (forall cluster_arn service_arn rest log,
        map next_token_of
          (issued (get_tasks (S (length pre) + k) cluster_arn service_arn)
             {| script := serving (map tasks_page pre
                                     ++ [tasks_last last]) rest;
                calls := log |})
        = None :: map (fun p => Some (snd p)) pre).
Proof.
  intros pre last k Hne. repeat apply conj.
  - intros rest log.
    destruct (run_observed _ _ _ _ _ _ (get_clusters_run pre last k rest log))
      as (_ & -> & _).
    rewrite map_map. simpl. rewrite map_id.
    now apply listing_kwargs_nonempty.
  - intros cluster_arn rest log.
    destruct (run_observed _ _ _ _ _ _
                (get_services_run cluster_arn pre last k rest log))
      as (_ & -> & _).
    rewrite map_map. simpl. rewrite map_id.
    now apply listing_kwargs_nonempty.
  - intros cluster_arn service_arn rest log.
    destruct (run_observed _ _ _ _ _ _
                (get_tasks_run cluster_arn service_arn pre last k rest log))
      as (_ & -> & _).
    rewrite map_map. simpl. rewrite map_id.
    now apply listing_kwargs_nonempty.
Qed.

Lemma get_tasks_empty_filter fuel cluster_arn w :
  get_tasks fuel cluster_arn (Some "") w = get_tasks fuel cluster_arn None w.
Proof.
  unfold get_tasks. now rewrite !get_tasks_loop_scheme.
Qed.

(** X9.  Whatever the client does, every call that [get_tasks] makes is
    a [list_tasks] call for the cluster it was given, and all its calls
    carry the same service filter: the given service when that is a
    non-empty string, and no filter at all otherwise.  The first call
    carries no token.  A service given as the empty string is no filter:
    the run is the run without a service. *)
Theorem get_tasks_keeps_cluster_and_filter :
  forall fuel cluster_arn service_arn w,
    (exists tokens,
        issued (get_tasks fuel cluster_arn service_arn) w
        = map (list_tasks cluster_arn (token_kwarg service_arn)) tokens
        /\ (fuel <> 0 -> exists tokens', tokens = None :: tokens'))
    /\ (forall s, s <> "" -> token_kwarg (Some s) = Some s)
    /\ token_kwarg None = None
    /\ get_tasks fuel cluster_arn (Some "") w = get_tasks fuel cluster_arn None w.
Proof.
  intros fuel cluster_arn service_arn w. repeat apply conj.
  - destruct (paginated_loop_calls
                (list_tasks cluster_arn (token_kwarg service_arn))
                ListTasks.taskArns ListTasks.nextToken fuel [] None w)
      as (ks & Hks & Hfirst).
    rewrite <- get_tasks_loop_scheme in Hks.
    apply (issued_appended (get_tasks fuel cluster_arn service_arn)) in Hks.
    exists ks. split; [exact Hks|exact Hfirst].
  - apply token_kwarg_nonempty.
  - reflexivity.
  - apply get_tasks_empty_filter.
Qed.

(* ===================================================================== *)
(** * Tasks grouped by status *)
(* ===================================================================== *)

Lemma with_status_of_cons s t ts :
  with_status_of s (t :: ts)
  = if decide (lastStatus t = s) then t :: with_status_of s ts
    else with_status_of s ts.
Proof.
  unfold with_status_of. rewrite filter_cons.
  destruct (decide (lastStatus t = s)); reflexivity.
Qed.

Lemma tasks_by_status_step_lookup (m : gmap string (list Task)) t s :
  tasks_by_status_step m t !! s
  = if decide (lastStatus t = s) then Some (default [] (m !! s) ++ [t])
    else m !! s.
Proof.
  unfold tasks_by_status_step.
  destruct (decide (lastStatus t = s)) as [<-|N].
  - apply lookup_insert_eq.
  - now apply lookup_insert_ne.
Qed.

Lemma tasks_by_status_fold_lookup ts :
  forall (m : gmap string (list Task)) s,
    fold_left tasks_by_status_step ts m !! s
    = match m !! s, with_status_of s ts with
      | None, [] => None
      | o, g => Some (default [] o ++ g)
      end.
Proof.
  induction ts as [|t ts IH]; intros m s.
  - simpl. destruct (m !! s); simpl; [now rewrite app_nil_r|reflexivity].
  - simpl. rewrite IH, tasks_by_status_step_lookup, with_status_of_cons.
    destruct (decide (lastStatus t = s)) as [E|N]; [|reflexivity].
    destruct (m !! s), (with_status_of s ts); simpl;
      rewrite <- ?app_assoc; reflexivity.
Qed.

Lemma tasks_by_status_of_lookup ts s :
  tasks_by_status_of ts !! s
  = match with_status_of s ts with
    | [] => None
    | g => Some g
    end.
Proof.
  unfold tasks_by_status_of.
  rewrite tasks_by_status_fold_lookup, lookup_empty.
  destruct (with_status_of s ts); reflexivity.
Qed.

(** X10.  The groups built by [show_service_summary]: the group kept
    under a status is made of the tasks of the list that have this
    status, all of them, in the order of the list; a status has a group
    exactly when some task has it, so no group is empty. *)
Theorem tasks_by_status_groups :
  forall task_details s,
    default [] (tasks_by_status_of task_details !! s)
    = filter (fun t => lastStatus t = s) task_details
    /\ (tasks_by_status_of task_details !! s = None
        <-> forall t, In t task_details -> lastStatus t <> s)
    /\ tasks_by_status_of task_details !! s <> Some [].
Proof.
  intros ts s. rewrite tasks_by_status_of_lookup.
  fold (with_status_of s ts).
  pose proof (count_status_pos s ts) as Hpos. unfold count_status in Hpos.
  fold (with_status_of s ts) in Hpos.
  destruct (with_status_of s ts) as [|t g]; simpl in Hpos |- *.
  - repeat split; [|discriminate].
    intros _ t Hin Hs. assert (0 < 0); [|lia]. apply Hpos. eauto.
  - repeat split; [discriminate| |discriminate].
    intros Hnone. destruct (proj1 Hpos ltac:(lia)) as (t' & Hin & Hs).
    now elim (Hnone t' Hin).
Qed.

(** X11.  The two summaries agree: the size of each group of
    [show_service_summary] is the count that the loop of
    [show_cluster_summary] computes for the same tasks, status by
    status, and the two maps have the same keys. *)
Theorem group_sizes_are_the_status_counts :
  forall task_details,
    length <$> tasks_by_status_of task_details = status_count_of task_details.
Proof.
  intros ts. apply map_eq. intros s.
  rewrite lookup_fmap, tasks_by_status_of_lookup, status_count_of_lookup.
  unfold count_status. fold (with_status_of s ts).
  destruct (with_status_of s ts); reflexivity.
Qed.

(* ===================================================================== *)
(** * The selection menus *)
(* ===================================================================== *)

Lemma last_segment_name_of arn : last_segment arn = Some (name_of arn).
Proof.
  unfold last_segment, name_of.
  destruct (str_split_last "/" arn) as (pieces & name & -> & _ & _).
  now rewrite getitem_last, last_last.
Qed.

Lemma getitem_in_range {A : Type} (l : list A) (i : Z) :
  (0 <= i < Z.of_nat (length l))%Z ->
  getitem l i = nth_error l (Z.to_nat i).
Proof.
  intros Hi. unfold getitem. destruct (Z.leb_spec 0 i); [reflexivity|lia].
Qed.

Lemma menu_entries_run {R : Type} arns :
  forall i entries (w : World R) typed shown,
    menu_entries i arns entries (session w typed shown)
    = (Done (entries ++ entries_of arns),
       session w typed
         (shown ++ map Printed (numbered i (map name_of arns)))).
Proof.
  induction arns as [|arn arns IH]; intros i entries w typed shown.
  - simpl. unfold sret. now rewrite !app_nil_r.
  - cbn [menu_entries]. unfold sbind at 1. unfold subscript.
    rewrite last_segment_name_of. unfold sbind at 1. unfold print at 1.
    cbn [client stdin stdout session].
    fold (session w typed (shown ++ [Printed (str_of_nat i ++ ") " ++ name_of arn)])).
    rewrite IH. cbn [entries_of map numbered].
    rewrite <- !app_assoc. reflexivity.
Qed.

Section MenuFacts.

Variable lower : string -> string.
Variable int : string -> option Z.

(** Up to the prompt, [list_clusters_menu] lists the clusters, shows
    the menu and reads one line; what is left is the choice. *)
Lemma list_clusters_menu_asks fuel w w' arn arns sel typed shown :
  get_clusters fuel w = (Return (arn :: arns), w') ->
  list_clusters_menu lower int fuel (session w (sel :: typed) shown)
  = (if String.eqb (lower sel) "q" then sret None
     else
       match int sel with
       | None =>
           _ <~ print_error "Invalid input. Please enter a number." ;;
           sret None
       | Some n =>
           let index := (n - 1)%Z in
           if ((index <? 0)
               || (Z.of_nat (length (entries_of (arn :: arns))) <=? index))%Z
           then
             _ <~ print_error "Invalid selection." ;;
             sret None
           else
             chosen <~ subscript (getitem (entries_of (arn :: arns)) index) ;;
             sret (Some chosen)
       end)
      (session w' typed
         (shown ++ menu_shown "AVAILABLE ECS CLUSTERS" clusters_prompt
                     (arn :: arns))).
Proof.
  intros Hget. unfold list_clusters_menu.
  unfold sbind at 1. unfold on_client. cbn [client session]. rewrite Hget.
  cbn [Py.list_truthy negb stdin stdout].
  unfold sbind at 1. unfold print_header, print at 1.
  cbn [client stdin stdout].
  unfold sbind at 1.
  match goal with
  | |- context [menu_entries 1 ?l [] ?s] =>
      change s with (session w' (sel :: typed)
                       (shown ++ [Printed (COLORS.BLUE ++ "========== "
                                   ++ "AVAILABLE ECS CLUSTERS"
                                   ++ " ==========" ++ COLORS.NC)]))
  end.
  rewrite menu_entries_run.
  unfold sbind at 1. unfold print at 1. cbn [client stdin stdout session].
  unfold sbind at 1. unfold input at 1. cbn [client stdin stdout].
  unfold menu_shown, session. cbn [app].
  rewrite <- !app_assoc. reflexivity.
Qed.

Lemma list_services_menu_asks fuel cluster_arn cluster_name w w' arn arns sel
    typed shown :
  get_services fuel cluster_arn w = (Return (arn :: arns), w') ->
  list_services_menu lower int fuel cluster_arn cluster_name
    (session w (sel :: typed) shown)
  = (if String.eqb (lower sel) "q" then sret NoService
     else if String.eqb (lower sel) "b" then sret GoBack
     else
       match int sel with
       | None =>
           _ <~ print_error "Invalid input. Please enter a number." ;;
           sret NoService
       | Some n =>
           let index := (n - 1)%Z in
           if ((index <? 0)
               || (Z.of_nat (length (entries_of (arn :: arns))) <=? index))%Z
           then
             _ <~ print_error "Invalid selection." ;;
             sret NoService
           else
             chosen <~ subscript (getitem (entries_of (arn :: arns)) index) ;;
             sret (ChosenService chosen)
       end)
      (session w' typed
         (shown ++ menu_shown ("SERVICES IN CLUSTER: " ++ cluster_name)
                     services_prompt (arn :: arns))).
Proof.
  intros Hget. unfold list_services_menu.
  unfold sbind at 1. unfold on_client. cbn [client session]. rewrite Hget.
  cbn [Py.list_truthy negb stdin stdout].
  unfold sbind at 1. unfold print_header, print at 1.
  cbn [client stdin stdout].
  unfold sbind at 1.
  match goal with
  | |- context [menu_entries 1 ?l [] ?s] =>
      change s with (session w' (sel :: typed)
                       (shown ++ [Printed (COLORS.BLUE ++ "========== "
                                   ++ ("SERVICES IN CLUSTER: " ++ cluster_name)
                                   ++ " ==========" ++ COLORS.NC)]))
  end.
  rewrite menu_entries_run.
  unfold sbind at 1. unfold print at 1. cbn [client stdin stdout session].
  unfold sbind at 1. unfold input at 1. cbn [client stdin stdout].
  unfold menu_shown, session. cbn [app].
  rewrite <- !app_assoc. reflexivity.
Qed.

Lemma entries_of_nth arns i :
  nth_error (entries_of arns) i
  = option_map (fun arn => (arn, name_of arn)) (nth_error arns i).
Proof. unfold entries_of. apply nth_error_map. Qed.

Lemma entries_of_length arns : length (entries_of arns) = length arns.
Proof. unfold entries_of. apply length_map. Qed.

End MenuFacts.

Lemma list_clusters_menu_empty lower int fuel w w' typed shown :
  get_clusters fuel w = (Return [], w') ->
  list_clusters_menu lower int fuel (session w typed shown)
  = (Done None,
     session w' typed (shown ++ [warning_line "No clusters found."])).
Proof.
  intros Hget.
  unfold list_clusters_menu, sbind, on_client. cbn [client session].
  rewrite Hget. reflexivity.
Qed.

Lemma list_services_menu_empty lower int fuel cluster_arn cluster_name
    w w' typed shown :
  get_services fuel cluster_arn w = (Return [], w') ->
  list_services_menu lower int fuel cluster_arn cluster_name
    (session w typed shown)
  = (Done NoService,
     session w' typed
       (shown ++ [warning_line ("No services found in cluster: "
                                  ++ cluster_name)])).
Proof.
  intros Hget.
  unfold list_services_menu, sbind, on_client. cbn [client session].
  rewrite Hget. reflexivity.
Qed.

Lemma list_clusters_menu_eof lower int fuel w w' arn arns shown :
  get_clusters fuel w = (Return (arn :: arns), w') ->
  list_clusters_menu lower int fuel (session w [] shown)
  = (Raised EOFError,
     session w' []
       (shown ++ menu_shown "AVAILABLE ECS CLUSTERS" clusters_prompt
                   (arn :: arns))).
Proof.
  intros Hget. unfold list_clusters_menu.
  unfold sbind at 1. unfold on_client. cbn [client session]. rewrite Hget.
  cbn [Py.list_truthy negb stdin stdout].
  unfold sbind at 1. unfold print_header, print at 1.
  cbn [client stdin stdout]. unfold sbind at 1.
  match goal with
  | |- context [menu_entries 1 ?l [] ?s] =>
      change s with (session w' []
                       (shown ++ [Printed (COLORS.BLUE ++ "========== "
                                   ++ "AVAILABLE ECS CLUSTERS"
                                   ++ " ==========" ++ COLORS.NC)]))
  end.
  rewrite menu_entries_run.
  unfold sbind, print, input, menu_shown, session.
  cbn [client stdin stdout app]. rewrite <- !app_assoc. reflexivity.
Qed.

Lemma list_services_menu_eof lower int fuel cluster_arn cluster_name
    w w' arn arns shown :
  get_services fuel cluster_arn w = (Return (arn :: arns), w') ->
  list_services_menu lower int fuel cluster_arn cluster_name
    (session w [] shown)
  = (Raised EOFError,
     session w' []
       (shown ++ menu_shown ("SERVICES IN CLUSTER: " ++ cluster_name)
                   services_prompt (arn :: arns))).
Proof.
  intros Hget. unfold list_services_menu.
  unfold sbind at 1. unfold on_client. cbn [client session]. rewrite Hget.
  cbn [Py.list_truthy negb stdin stdout].
  unfold sbind at 1. unfold print_header, print at 1.
  cbn [client stdin stdout]. unfold sbind at 1.
  match goal with
  | |- context [menu_entries 1 ?l [] ?s] =>
      change s with (session w' []
                       (shown ++ [Printed (COLORS.BLUE ++ "========== "
                                   ++ ("SERVICES IN CLUSTER: " ++ cluster_name)
                                   ++ " ==========" ++ COLORS.NC)]))
  end.
  rewrite menu_entries_run.
  unfold sbind, print, input, menu_shown, session.
  cbn [client stdin stdout app]. rewrite <- !app_assoc. reflexivity.
Qed.

Lemma numbered_nth names :
  forall i k,
    nth_error (numbered i names) k
    = option_map (fun name => (str_of_nat (i + k) ++ ") " ++ name)%string)
                 (nth_error names k).
Proof.
  induction names as [|name names IH]; intros i [|k]; simpl; try reflexivity.
  - now rewrite Nat.add_0_r.
  - rewrite IH. now replace (S i + k) with (i + S k) by lia.
Qed.

Ltac choice_taken Hq :=
  match goal with
  | |- context [String.eqb ?a ?b] =>
      destruct (String.eqb_spec a b) as [Heq|_];
      [first [now elim Hq | congruence]|]
  end.

(** X12.  A listing without entries: the menu returns [None] after one
    warning line, without showing a menu and without reading anything
    from the user -- the typed lines are still there. *)
Theorem menus_without_entries :
  forall (lower : string -> string) (int : string -> option Z),
    (forall fuel w w' typed shown,
        get_clusters fuel w = (Return [], w') ->
        list_clusters_menu lower int fuel (session w typed shown)
        = (Done None,
           session w' typed (shown ++ [warning_line "No clusters found."])))
    /\ (forall fuel cluster_arn cluster_name w w' typed shown,
        get_services fuel cluster_arn w = (Return [], w') ->
        list_services_menu lower int fuel cluster_arn cluster_name
          (session w typed shown)
        = (Done NoService,
           session w' typed
             (shown ++ [warning_line ("No services found in cluster: "
                                        ++ cluster_name)]))).
Proof.
  intros lower int. split.
  - intros fuel w w' typed shown. apply list_clusters_menu_empty.
  - intros fuel cluster_arn cluster_name w w' typed shown.
    apply list_services_menu_empty.
Qed.

(** X13.  A number from 1 to the number of entries picks the entry
    shown under that number: the menu returns the identifier at that
    place of the listing, paired with its name, and the line the menu
    printed at that place reads [n) name].  One line was read, and
    nothing was printed after the prompt. *)
Theorem menus_return_the_entry_numbered :
  forall (lower : string -> string) (int : string -> option Z)
         sel n typed shown arns,
    lower sel <> "q" ->
    int sel = Some n ->
    (1 <= n <= Z.of_nat (length arns))%Z ->
    (forall fuel w w',
        get_clusters fuel w = (Return arns, w') ->
        exists arn name,
          nth_error arns (Z.to_nat (n - 1)) = Some arn
          /\ last_segment arn = Some name
          /\ nth_error (numbered 1 (map name_of arns)) (Z.to_nat (n - 1))
             = Some (str_of_nat (Z.to_nat n) ++ ") " ++ name)%string
          /\ list_clusters_menu lower int fuel (session w (sel :: typed) shown)
             = (Done (Some (arn, name)),
                session w' typed
                  (shown ++ menu_shown "AVAILABLE ECS CLUSTERS"
                              clusters_prompt arns)))
    /\ (forall fuel cluster_arn cluster_name w w',
        lower sel <> "b" ->
        get_services fuel cluster_arn w = (Return arns, w') ->
        exists arn name,
          nth_error arns (Z.to_nat (n - 1)) = Some arn
          /\ last_segment arn = Some name
          /\ nth_error (numbered 1 (map name_of arns)) (Z.to_nat (n - 1))
             = Some (str_of_nat (Z.to_nat n) ++ ") " ++ name)%string
          /\ list_services_menu lower int fuel cluster_arn cluster_name
               (session w (sel :: typed) shown)
             = (Done (ChosenService (arn, name)),
                session w' typed
                  (shown ++ menu_shown ("SERVICES IN CLUSTER: " ++ cluster_name)
                              services_prompt arns))).
Proof.
  intros lower int sel n typed shown arns Hq Hint Hn.
  assert (Hsome : exists arn, nth_error arns (Z.to_nat (n - 1)) = Some arn).
  { destruct (nth_error arns (Z.to_nat (n - 1))) as [arn|] eqn:E; [eauto|].
    apply nth_error_None in E. lia. }
  destruct Hsome as [arn Harn].
  assert (Hline : nth_error (numbered 1 (map name_of arns)) (Z.to_nat (n - 1))
                  = Some (str_of_nat (Z.to_nat n) ++ ") " ++ name_of arn)%string).
  { rewrite numbered_nth, nth_error_map, Harn. simpl.
    now replace (S (Z.to_nat (n - 1))) with (Z.to_nat n) by lia. }
  assert (Hpick : getitem (entries_of arns) (n - 1) = Some (arn, name_of arn)).
  { rewrite getitem_in_range by (rewrite entries_of_length; lia).
    now rewrite entries_of_nth, Harn. }
  assert (Hin : ((n - 1 <? 0) || (Z.of_nat (length (entries_of arns)) <=? n - 1))%Z
                = false).
  { rewrite entries_of_length. apply orb_false_intro; lia. }
  destruct arns as [|a arns]; [simpl in Hn; lia|].
  split.
  - intros fuel w w' Hget. exists arn, (name_of arn).
    repeat split; [exact Harn|apply last_segment_name_of|exact Hline|].
    rewrite (list_clusters_menu_asks lower int fuel w w' a arns sel typed shown
               Hget).
    choice_taken Hq. rewrite Hint. cbv zeta. rewrite Hin.
    unfold sbind, subscript. rewrite Hpick. reflexivity.
  - intros fuel cluster_arn cluster_name w w' Hb Hget.
    exists arn, (name_of arn).
    repeat split; [exact Harn|apply last_segment_name_of|exact Hline|].
    rewrite (list_services_menu_asks lower int fuel cluster_arn cluster_name
               w w' a arns sel typed shown Hget).
    choice_taken Hq. choice_taken Hb. rewrite Hint. cbv zeta. rewrite Hin.
    unfold sbind, subscript. rewrite Hpick. reflexivity.
Qed.

(** X14.  Once the letters are set aside -- the typed line is not [q]
    in lower case, nor [b] in the services menu -- anything else than a
    number of the menu picks nothing.  A line that [int] does not read
    makes the menu print [Invalid input. Please enter a number.] and
    return [None]; a number below 1 or above the number of entries -- 0
    and the negative numbers too, which a bare subscript would count
    from the end of the list -- makes it print [Invalid selection.] and
    return [None].  No entry is returned and no exception leaves the
    menu. *)
Theorem menus_reject_what_is_not_on_the_menu :
  forall (lower : string -> string) (int : string -> option Z)
         sel typed shown arn arns message,
    lower sel <> "q" ->
    (int sel = None /\ message = "Invalid input. Please enter a number.")
    \/ (exists n, int sel = Some n
                  /\ (n < 1 \/ Z.of_nat (length (arn :: arns)) < n)%Z
                  /\ message = "Invalid selection.") ->
    (forall fuel w w',
        get_clusters fuel w = (Return (arn :: arns), w') ->
        list_clusters_menu lower int fuel (session w (sel :: typed) shown)
        = (Done None,
           session w' typed
             (shown ++ menu_shown "AVAILABLE ECS CLUSTERS" clusters_prompt
                         (arn :: arns)
                    ++ [error_line message])))
    /\ (forall fuel cluster_arn cluster_name w w',
        lower sel <> "b" ->
        get_services fuel cluster_arn w = (Return (arn :: arns), w') ->
        list_services_menu lower int fuel cluster_arn cluster_name
          (session w (sel :: typed) shown)
        = (Done NoService,
           session w' typed
             (shown ++ menu_shown ("SERVICES IN CLUSTER: " ++ cluster_name)
                         services_prompt (arn :: arns)
                    ++ [error_line message]))).
Proof.
  intros lower int sel typed shown arn arns message Hq Hrej.
  assert (Hbranch :
            (int sel = None
             /\ message = "Invalid input. Please enter a number.")
            \/ (exists n, int sel = Some n
                 /\ ((n - 1 <? 0)
                     || (Z.of_nat (length (entries_of (arn :: arns)))
                         <=? n - 1))%Z = true
                 /\ message = "Invalid selection.")).
  { destruct Hrej as [H|(n & Hint & Hn & Hm)]; [now left|right].
    exists n. rewrite entries_of_length. repeat split; [assumption| |assumption].
    apply orb_true_iff. lia. }
  split.
  - intros fuel w w' Hget.
    rewrite (list_clusters_menu_asks lower int fuel w w' arn arns sel typed
               shown Hget).
    choice_taken Hq.
    destruct Hbranch as [[-> ->]|(n & -> & Hout & ->)].
    + unfold sbind, print_error, print, sret, error_line, session.
      cbn [client stdin stdout]. now rewrite <- app_assoc.
    + cbv zeta. rewrite Hout.
      unfold sbind, print_error, print, sret, error_line, session.
      cbn [client stdin stdout]. now rewrite <- app_assoc.
  - intros fuel cluster_arn cluster_name w w' Hb Hget.
    rewrite (list_services_menu_asks lower int fuel cluster_arn cluster_name
               w w' arn arns sel typed shown Hget).
    choice_taken Hq. choice_taken Hb.
    destruct Hbranch as [[-> ->]|(n & -> & Hout & ->)].
    + unfold sbind, print_error, print, sret, error_line, session.
      cbn [client stdin stdout]. now rewrite <- app_assoc.
    + cbv zeta. rewrite Hout.
      unfold sbind, print_error, print, sret, error_line, session.
      cbn [client stdin stdout]. now rewrite <- app_assoc.
Qed.

(** X15.  The letters.  A line whose lower case is [q] makes both menus
    return [None] at once -- nothing is printed after the prompt and
    [int] has no say; a line whose lower case is [b] makes the services
    menu return [False], which is not the [None] of [q]. *)
Theorem menus_quit_and_go_back :
  forall (lower : string -> string) (int : string -> option Z)
         sel typed shown arn arns,
    (forall fuel w w',
        lower sel = "q" ->
        get_clusters fuel w = (Return (arn :: arns), w') ->
        list_clusters_menu lower int fuel (session w (sel :: typed) shown)
        = (Done None,
           session w' typed
             (shown ++ menu_shown "AVAILABLE ECS CLUSTERS" clusters_prompt
                         (arn :: arns))))
    /\ (forall fuel cluster_arn cluster_name w w',
        get_services fuel cluster_arn w = (Return (arn :: arns), w') ->
        (lower sel = "q" ->
         list_services_menu lower int fuel cluster_arn cluster_name
           (session w (sel :: typed) shown)
         = (Done NoService,
            session w' typed
              (shown ++ menu_shown ("SERVICES IN CLUSTER: " ++ cluster_name)
                          services_prompt (arn :: arns))))
        /\ (lower sel = "b" ->
            list_services_menu lower int fuel cluster_arn cluster_name
              (session w (sel :: typed) shown)
            = (Done GoBack,
               session w' typed
                 (shown ++ menu_shown ("SERVICES IN CLUSTER: " ++ cluster_name)
                             services_prompt (arn :: arns))))).
Proof.
  intros lower int sel typed shown arn arns. split.
  - intros fuel w w' Hq Hget.
    rewrite (list_clusters_menu_asks lower int fuel w w' arn arns sel typed
               shown Hget).
    rewrite Hq. reflexivity.
  - intros fuel cluster_arn cluster_name w w' Hget. split; intros Hsel;
      rewrite (list_services_menu_asks lower int fuel cluster_arn cluster_name
                 w w' arn arns sel typed shown Hget);
      rewrite Hsel; reflexivity.
Qed.

(** X16.  What leaves the menus as an exception.  When the listing
    raises, the exception of the client leaves the menu, and nothing was
    printed and nothing read.  When the listing has entries and the
    input is at its end, the menu is shown and [EOFError] leaves the
    menu. *)
Theorem menus_let_exceptions_through :
  forall (lower : string -> string) (int : string -> option Z),
    (forall fuel w w' e typed shown,
        get_clusters fuel w = (Raise e, w') ->
        list_clusters_menu lower int fuel (session w typed shown)
        = (Raised (ClientRaised e), session w' typed shown))
    /\ (forall fuel cluster_arn cluster_name w w' e typed shown,
        get_services fuel cluster_arn w = (Raise e, w') ->
        list_services_menu lower int fuel cluster_arn cluster_name
          (session w typed shown)
        = (Raised (ClientRaised e), session w' typed shown))
    /\ (forall fuel w w' arn arns shown,
        get_clusters fuel w = (Return (arn :: arns), w') ->
        list_clusters_menu lower int fuel (session w [] shown)
        = (Raised EOFError,
           session w' []
             (shown ++ menu_shown "AVAILABLE ECS CLUSTERS" clusters_prompt
                         (arn :: arns))))
    /\ (forall fuel cluster_arn cluster_name w w' arn arns shown,
        get_services fuel cluster_arn w = (Return (arn :: arns), w') ->
        list_services_menu lower int fuel cluster_arn cluster_name
          (session w [] shown)
        = (Raised EOFError,
           session w' []
             (shown ++ menu_shown ("SERVICES IN CLUSTER: " ++ cluster_name)
                         services_prompt (arn :: arns)))).
Proof.
  intros lower int. repeat apply conj.
  - intros fuel w w' e typed shown Hget.
    unfold list_clusters_menu, sbind, on_client. cbn [client session].
    rewrite Hget. reflexivity.
  - intros fuel cluster_arn cluster_name w w' e typed shown Hget.
    unfold list_services_menu, sbind, on_client. cbn [client session].
    rewrite Hget. reflexivity.
  - intros fuel w w' arn arns shown. apply list_clusters_menu_eof.
  - intros fuel cluster_arn cluster_name w w' arn arns shown.
    apply list_services_menu_eof.
Qed.

(* ===================================================================== *)
(** * More concrete inputs *)
(* ===================================================================== *)

Example split_arn :
  str_split "/" "arn:aws:ecs:eu-west-1:1:task/prod/0123abcd"
  = ["arn:aws:ecs:eu-west-1:1:task"; "prod"; "0123abcd"].
Proof. reflexivity. Qed.

Example split_trailing_slash : str_split "/" "a/" = ["a"; ""].
Proof. reflexivity. Qed.

Example split_empty : str_split "/" "" = [""].
Proof. reflexivity. Qed.

Example getitem_negative : getitem [10; 20; 30] (-1) = Some 30.
Proof. reflexivity. Qed.

Example getitem_out_of_range : getitem [10; 20; 30] (-4) = None.
Proof. reflexivity. Qed.

Example last_segment_of_task :
  last_segment "arn:aws:ecs:eu-west-1:1:task/prod/0123abcd" = Some "0123abcd".
Proof. reflexivity. Qed.

Example shown_group_of_service : shown_group "service:web" = "web".
Proof. reflexivity. Qed.

Example shown_group_of_family : shown_group "family:batch" = "family:batch".
Proof. reflexivity. Qed.

Example truncate_limit_two :
  truncate_string (text_of "abcdef") 2 = text_of "abcde...".
Proof. reflexivity. Qed.

Example truncate_limit_negative :
  truncate_string (text_of "ab") (-5) = text_of "...".
Proof. reflexivity. Qed.

(** Five code points, the last one above 127, limit 2: the slice drops
    the last code point, and the result has 7 code points. *)
Example truncate_limit_two_accented :
  truncate_string [104; 101; 108; 108; 233]%N 2
  = [104; 101; 108; 108; 46; 46; 46]%N.
Proof. reflexivity. Qed.

Example numbered_from_one : numbered 1 ["web"; "api"] = ["1) web"; "2) api"].
Proof. reflexivity. Qed.

Example str_of_nat_12 : str_of_nat 12 = "12".
Proof. reflexivity. Qed.

Example clusters_menu_second_entry :
  list_clusters_menu str_lower int_of_digits 1
    (session (fresh (serving [clusters_last ["arn:c/web"; "arn:c/api"]] []))
             ["2"; "next line"] [])
  = (Done (Some ("arn:c/api", "api")),
     session {| script := []; calls := [list_clusters None] |}
             ["next line"]
             (menu_shown "AVAILABLE ECS CLUSTERS" clusters_prompt
                ["arn:c/web"; "arn:c/api"])).
Proof. reflexivity. Qed.

Example services_menu_back :
  fst (list_services_menu str_lower int_of_digits 1 "arn:c/web" "web"
         (session (fresh (serving [services_last ["arn:s/web/front"]] []))
                  ["B"] []))
  = Done GoBack.
Proof. reflexivity. Qed.

Example grouping_by_status :
  tasks_by_status_of
    [with_status "RUNNING"; with_status "STOPPED"; with_status "RUNNING"]
  !! "RUNNING"
  = Some [with_status "RUNNING"; with_status "RUNNING"].
Proof. vm_compute. reflexivity. Qed.

Lemma last_segment_of_a_path_witness :
  occurs "/" "web" = false
  /\ last_segment ("arn:aws:ecs:eu-west-1:1:cluster" ++ "/" ++ "web")
     = Some "web".
Proof.
  assert (H : occurs "/" "web" = false) by reflexivity.
  split; [exact H|].
  exact (proj1 (last_segment_of_a_path
                  "arn:aws:ecs:eu-west-1:1:cluster" "web" H)).
Defined.

Lemma shown_group_drops_the_service_prefix_witness :
  String.prefix "service:" "service:web" = true
  /\ "service:web" = ("service:" ++ shown_group "service:web")%string.
Proof.
  assert (H : String.prefix "service:" "service:web" = true) by reflexivity.
  split; [exact H|].
  exact (proj1 (proj2 shown_group_drops_the_service_prefix) "service:web" H).
Defined.

Lemma truncate_string_idempotent_witness :
  let s := [233; 233; 233; 233; 233; 233; 26085; 26412; 35486; 33]%N in
  (3 <= 8)%Z
  /\ truncate_string (truncate_string s 8) 8 = truncate_string s 8.
Proof.
  intros s.
  assert (H : (3 <= 8)%Z) by lia.
  split; [exact H|].
  exact (proj2 (truncate_string_idempotent s 8 H)).
Defined.

Lemma truncate_string_below_three_witness :
  let s := [104; 101; 108; 108; 233]%N in
  (2 < 3)%Z
  /\ (2 < Z.of_nat (length s))%Z
  /\ (2 < Z.of_nat (length (truncate_string s 2)))%Z.
Proof.
  intros s.
  assert (H3 : (2 < 3)%Z) by lia.
  assert (Hlong : (2 < Z.of_nat (length s))%Z).
  { vm_compute. reflexivity. }
  split; [exact H3|]. split; [exact Hlong|].
  exact (proj2 (proj2 (truncate_string_below_three s 2 H3 Hlong))).
Defined.

Lemma batched_requests_are_full_but_the_last_witness :
  let rs := repeat {| DescribeTasks.tasks := [] |} 3 in
  ceil_div (length (repeat "task" 250)) 100 <= length rs
  /\ list_sum (map requested
                 (issued (get_task_details "c" (repeat "task" 250))
                    (fresh (serving rs []))))
     = length (repeat "task" 250).
Proof.
  intros rs.
  assert (H : ceil_div (length (repeat "task" 250)) 100 <= length rs).
  { vm_compute. lia. }
  split; [exact H|].
  exact (proj2 (proj2 (proj1 batched_requests_are_full_but_the_last
                         "c" (repeat "task" 250) rs [] [] H))).
Defined.

Lemma batched_calls_follow_the_chunks_witness :
  let w := fresh (serving [{| DescribeTasks.tasks := [] |}] []) in
  result (get_task_details "c" ["task-1"]) w = Return []
  /\ issued (get_task_details "c" ["task-1"]) w
     = map (describe_tasks "c") (chunks_of 100 ["task-1"]).
Proof.
  intros w.
  assert (H : result (get_task_details "c" ["task-1"]) w = Return [])
    by reflexivity.
  split; [exact H|].
  destruct (proj1 batched_calls_follow_the_chunks "c" ["task-1"] w)
    as (n & _ & Hall & _).
  exact (Hall [] H).
Defined.

Lemma nonempty_tokens_are_passed_back_witness :
  let pre := [(["arn:c/a"], "token-1"); (["arn:c/b"], "token-2")] in
  List.Forall (fun p : page => snd p <> "") pre
  /\ map next_token_of
       (issued (get_clusters 3)
          (fresh (serving (map clusters_page pre ++ [clusters_last []]) [])))
     = [None; Some "token-1"; Some "token-2"].
Proof.
  intros pre.
  assert (H : List.Forall (fun p : page => snd p <> "") pre).
  { repeat constructor; simpl; discriminate. }
  split; [exact H|].
  exact (proj1 (nonempty_tokens_are_passed_back pre [] 0 H) [] []).
Defined.

Lemma get_tasks_keeps_cluster_and_filter_witness :
  let w := fresh (serving [tasks_page (["t1"], "tok"); tasks_last ["t2"]] []) in
  2 <> 0
  /\ exists tokens tokens',
      issued (get_tasks 2 "arn:c/web" (Some "front")) w
      = map (list_tasks "arn:c/web" (token_kwarg (Some "front"))) tokens
      /\ tokens = None :: tokens'.
Proof.
  intros w.
  assert (H : 2 <> 0) by discriminate.
  split; [exact H|].
  destruct (proj1 (get_tasks_keeps_cluster_and_filter
                     2 "arn:c/web" (Some "front") w))
    as (tokens & Hi & Hfirst).
  destruct (Hfirst H) as [tokens' Htokens].
  exists tokens, tokens'. split; assumption.
Defined.

Lemma tasks_by_status_groups_witness :
  let ts := [with_status "RUNNING"] in
  (forall t, In t ts -> lastStatus t <> "STOPPED")
  /\ tasks_by_status_of ts !! "STOPPED" = None.
Proof.
  intros ts.
  assert (H : forall t, In t ts -> lastStatus t <> "STOPPED").
  { intros t [<-|[]]. simpl. discriminate. }
  split; [exact H|].
  exact (proj2 (proj1 (proj2 (tasks_by_status_groups ts "STOPPED"))) H).
Defined.

Lemma menus_without_entries_witness :
  let w := fresh (serving [clusters_last []] []) in
  let w' := {| script := []; calls := [list_clusters None] |} in
  get_clusters 1 w = (Return [], w')
  /\ list_clusters_menu str_lower int_of_digits 1 (session w ["1"] [])
     = (Done None, session w' ["1"] ([] ++ [warning_line "No clusters found."])).
Proof.
  intros w w'.
  assert (H : get_clusters 1 w = (Return [], w')) by reflexivity.
  split; [exact H|].
  exact (proj1 (menus_without_entries str_lower int_of_digits)
               1 w w' ["1"] [] H).
Defined.

Lemma menus_return_the_entry_numbered_witness :
  let arns := ["arn:c/web"; "arn:c/api"] in
  let w := fresh (serving [clusters_last arns] []) in
  let w' := {| script := []; calls := [list_clusters None] |} in
  str_lower "2" <> "q"
  /\ int_of_digits "2" = Some 2%Z
  /\ (1 <= 2 <= Z.of_nat (length arns))%Z
  /\ get_clusters 1 w = (Return arns, w')
  /\ exists arn name,
      nth_error arns (Z.to_nat (2 - 1)) = Some arn
      /\ list_clusters_menu str_lower int_of_digits 1 (session w ["2"] [])
         = (Done (Some (arn, name)),
            session w' []
              ([] ++ menu_shown "AVAILABLE ECS CLUSTERS" clusters_prompt arns)).
Proof.
  intros arns w w'.
  assert (Hq : str_lower "2" <> "q") by (vm_compute; discriminate).
  assert (Hint : int_of_digits "2" = Some 2%Z) by reflexivity.
  assert (Hn : (1 <= 2 <= Z.of_nat (length arns))%Z) by (simpl; lia).
  assert (Hget : get_clusters 1 w = (Return arns, w')) by reflexivity.
  repeat (split; [assumption|]).
  destruct (proj1 (menus_return_the_entry_numbered
                     str_lower int_of_digits "2" 2%Z [] [] arns Hq Hint Hn)
                  1 w w' Hget)
    as (arn & name & Harn & _ & _ & Hrun).
  exists arn, name. split; assumption.
Defined.

Lemma menus_reject_what_is_not_on_the_menu_witness :
  let arns := ["arn:c/web"; "arn:c/api"] in
  let w := fresh (serving [clusters_last arns] []) in
  let w' := {| script := []; calls := [list_clusters None] |} in
  let ws := fresh (serving [services_last arns] []) in
  let ws' := {| script := []; calls := [list_services "arn:c" None] |} in
  let run sel :=
    list_clusters_menu str_lower int_of_signed 1 (session w [sel] []) in
  let run_services sel :=
    list_services_menu str_lower int_of_signed 1 "arn:c" "c"
      (session ws [sel] []) in
  let shown message :=
    [] ++ menu_shown "AVAILABLE ECS CLUSTERS" clusters_prompt arns
       ++ [error_line message] in
  get_clusters 1 w = (Return arns, w')
  /\ get_services 1 "arn:c" ws = (Return arns, ws')
  /\ (str_lower "-1" <> "q" /\ int_of_signed "-1" = Some (-1)%Z
      /\ (-1 < 1)%Z
      /\ run "-1" = (Done None, session w' [] (shown "Invalid selection.")))
  /\ (str_lower "0" <> "q" /\ int_of_signed "0" = Some 0%Z
      /\ (0 < 1)%Z
      /\ run "0" = (Done None, session w' [] (shown "Invalid selection.")))
  /\ (str_lower "3" <> "q" /\ int_of_signed "3" = Some 3%Z
      /\ (Z.of_nat (length arns) < 3)%Z
      /\ run "3" = (Done None, session w' [] (shown "Invalid selection.")))
  /\ (str_lower "web" <> "q" /\ int_of_signed "web" = None
      /\ run "web"
         = (Done None,
            session w' [] (shown "Invalid input. Please enter a number.")))
  /\ (str_lower "x" <> "q" /\ str_lower "x" <> "b"
      /\ int_of_signed "x" = None
      /\ fst (run_services "x") = Done NoService).
Proof.
  intros arns w w' ws ws' run run_services shown.
  assert (Hget : get_clusters 1 w = (Return arns, w')) by reflexivity.
  assert (Hgets : get_services 1 "arn:c" ws = (Return arns, ws'))
    by reflexivity.
  assert (Hq1 : str_lower "-1" <> "q") by (vm_compute; discriminate).
  assert (Hq0 : str_lower "0" <> "q") by (vm_compute; discriminate).
  assert (Hq3 : str_lower "3" <> "q") by (vm_compute; discriminate).
  assert (Hqw : str_lower "web" <> "q") by (vm_compute; discriminate).
  assert (Hqx : str_lower "x" <> "q") by (vm_compute; discriminate).
  assert (Hbx : str_lower "x" <> "b") by (vm_compute; discriminate).
  assert (Hi1 : int_of_signed "-1" = Some (-1)%Z) by reflexivity.
  assert (Hi0 : int_of_signed "0" = Some 0%Z) by reflexivity.
  assert (Hi3 : int_of_signed "3" = Some 3%Z) by reflexivity.
  assert (Hiw : int_of_signed "web" = None) by reflexivity.
  assert (Hix : int_of_signed "x" = None) by reflexivity.
  assert (Hn1 : (-1 < 1)%Z) by lia.
  assert (Hn0 : (0 < 1)%Z) by lia.
  assert (Hn3 : (Z.of_nat (length arns) < 3)%Z) by (simpl; lia).
  split; [exact Hget|]. split; [exact Hgets|].
  split; [repeat (split; [assumption|])|].
  { exact (proj1 (menus_reject_what_is_not_on_the_menu
                    str_lower int_of_signed "-1" [] [] "arn:c/web" ["arn:c/api"]
                    "Invalid selection." Hq1
                    (or_intror (ex_intro _ (-1)%Z
                                  (conj Hi1 (conj (or_introl Hn1) eq_refl)))))
                 1 w w' Hget). }
  split; [repeat (split; [assumption|])|].
  { exact (proj1 (menus_reject_what_is_not_on_the_menu
                    str_lower int_of_signed "0" [] [] "arn:c/web" ["arn:c/api"]
                    "Invalid selection." Hq0
                    (or_intror (ex_intro _ 0%Z
                                  (conj Hi0 (conj (or_introl Hn0) eq_refl)))))
                 1 w w' Hget). }
  split; [repeat (split; [assumption|])|].
  { exact (proj1 (menus_reject_what_is_not_on_the_menu
                    str_lower int_of_signed "3" [] [] "arn:c/web" ["arn:c/api"]
                    "Invalid selection." Hq3
                    (or_intror (ex_intro _ 3%Z
                                  (conj Hi3 (conj (or_intror Hn3) eq_refl)))))
                 1 w w' Hget). }
  split; [repeat (split; [assumption|])|].
  { exact (proj1 (menus_reject_what_is_not_on_the_menu
                    str_lower int_of_signed "web" [] [] "arn:c/web"
                    ["arn:c/api"] "Invalid input. Please enter a number." Hqw
                    (or_introl (conj Hiw eq_refl)))
                 1 w w' Hget). }
  repeat (split; [assumption|]).
  unfold run_services.
  rewrite (proj2 (menus_reject_what_is_not_on_the_menu
                    str_lower int_of_signed "x" [] [] "arn:c/web"
                    ["arn:c/api"] "Invalid input. Please enter a number." Hqx
                    (or_introl (conj Hix eq_refl)))
                 1 "arn:c" "c" ws ws' Hbx Hgets).
  reflexivity.
Defined.

Lemma menus_quit_and_go_back_witness :
  let w := fresh (serving [services_last ["arn:s/web/front"]] []) in
  let w' := {| script := [];
               calls := [list_services "arn:c/web" None] |} in
  str_lower "B" = "b"
  /\ get_services 1 "arn:c/web" w = (Return ["arn:s/web/front"], w')
  /\ fst (list_services_menu str_lower int_of_digits 1 "arn:c/web" "web"
            (session w ["B"] []))
     = Done GoBack.
Proof.
  intros w w'.
  assert (Hb : str_lower "B" = "b") by reflexivity.
  assert (Hget : get_services 1 "arn:c/web" w
                 = (Return ["arn:s/web/front"], w')) by reflexivity.
  split; [exact Hb|]. split; [exact Hget|].
  rewrite (proj2 (proj2 (menus_quit_and_go_back
                           str_lower int_of_digits "B" [] []
                           "arn:s/web/front" [])
                        1 "arn:c/web" "web" w w' Hget) Hb).
  reflexivity.
Defined.

Lemma menus_let_exceptions_through_witness :
  let e := ClientError "AccessDeniedException" "not authorized" in
  let w := fresh (failing_after [] e []) in
  let w' := {| script := []; calls := [list_clusters None] |} in
  get_clusters 1 w = (Raise e, w')
  /\ list_clusters_menu str_lower int_of_digits 1 (session w ["1"] [])
     = (Raised (ClientRaised e), session w' ["1"] []).
Proof.
  intros e w w'.
  assert (Hget : get_clusters 1 w = (Raise e, w')) by reflexivity.
  split; [exact Hget|].
  exact (proj1 (menus_let_exceptions_through str_lower int_of_digits)
               1 w w' e ["1"] [] Hget).
Defined.

Lemma entries_of_in arns i arn name :
  nth_error (entries_of arns) i = Some (arn, name) ->
  In arn arns /\ last_segment arn = Some name.
Proof.
  rewrite entries_of_nth.
  destruct (nth_error arns i) as [a|] eqn:E; [|discriminate].
  simpl. intros [= <- <-]. split.
  - now apply nth_error_In in E.
  - apply last_segment_name_of.
Qed.

Lemma picked_in_range arns n chosen :
  ((n - 1 <? 0) || (Z.of_nat (length (entries_of arns)) <=? n - 1))%Z = false ->
  getitem (entries_of arns) (n - 1) = Some chosen ->
  In (fst chosen) arns /\ last_segment (fst chosen) = Some (snd chosen).
Proof.
  intros Hin Hget. apply orb_false_elim in Hin as [H0 Hlen].
  rewrite getitem_in_range in Hget by lia.
  destruct chosen as [arn name]. now apply entries_of_in in Hget.
Qed.

(** X17.  Whatever the user types and whatever [str.lower] and [int]
    make of it, a pair returned by a menu is on the listing: its
    identifier is one of the identifiers the listing returned, and its
    name is the last segment of that identifier. *)
Theorem menus_return_only_listed_entries :
  forall (lower : string -> string) (int : string -> option Z)
         arns typed shown arn name,
    (forall fuel w w' s',
        get_clusters fuel w = (Return arns, w') ->
        list_clusters_menu lower int fuel (session w typed shown)
        = (Done (Some (arn, name)), s') ->
        In arn arns /\ last_segment arn = Some name)
    /\ (forall fuel cluster_arn cluster_name w w' s',
        get_services fuel cluster_arn w = (Return arns, w') ->
        list_services_menu lower int fuel cluster_arn cluster_name
          (session w typed shown)
        = (Done (ChosenService (arn, name)), s') ->
        In arn arns /\ last_segment arn = Some name).
Proof.
  intros lower int arns typed shown arn name. split.
  - intros fuel w w' s' Hget Hrun.
    destruct arns as [|a arns].
    { rewrite (list_clusters_menu_empty lower int _ _ _ _ _ Hget) in Hrun.
      discriminate. }
    destruct typed as [|sel typed].
    { rewrite (list_clusters_menu_eof lower int _ _ _ _ _ _ Hget) in Hrun.
      discriminate. }
    rewrite (list_clusters_menu_asks lower int fuel w w' a arns sel typed shown
               Hget) in Hrun.
    destruct (String.eqb (lower sel) "q"); [discriminate|].
    destruct (int sel) as [n|]; [|discriminate].
    cbv zeta in Hrun.
    destruct ((n - 1 <? 0)
              || (Z.of_nat (length (entries_of (a :: arns))) <=? n - 1))%Z
      eqn:Hin; [discriminate|].
    unfold sbind, subscript in Hrun.
    destruct (getitem (entries_of (a :: arns)) (n - 1)) as [chosen|] eqn:Hpick;
      [|discriminate].
    injection Hrun as -> _.
    exact (picked_in_range (a :: arns) n (arn, name) Hin Hpick).
  - intros fuel cluster_arn cluster_name w w' s' Hget Hrun.
    destruct arns as [|a arns].
    { rewrite (list_services_menu_empty lower int _ _ _ _ _ _ _ Hget)
        in Hrun.
      discriminate. }
    destruct typed as [|sel typed].
    { rewrite (list_services_menu_eof lower int _ _ _ _ _ _ _ _ Hget)
        in Hrun.
      discriminate. }
    rewrite (list_services_menu_asks lower int fuel cluster_arn cluster_name
               w w' a arns sel typed shown Hget) in Hrun.
    destruct (String.eqb (lower sel) "q"); [discriminate|].
    destruct (String.eqb (lower sel) "b"); [discriminate|].
    destruct (int sel) as [n|]; [|discriminate].
    cbv zeta in Hrun.
    destruct ((n - 1 <? 0)
              || (Z.of_nat (length (entries_of (a :: arns))) <=? n - 1))%Z
      eqn:Hin; [discriminate|].
    unfold sbind, subscript in Hrun.
    destruct (getitem (entries_of (a :: arns)) (n - 1)) as [chosen|] eqn:Hpick;
      [|discriminate].
    injection Hrun as -> _.
    exact (picked_in_range (a :: arns) n (arn, name) Hin Hpick).
Qed.

Lemma menus_return_only_listed_entries_witness :
  let arns := ["arn:c/web"; "arn:c/api"] in
  let w := fresh (serving [clusters_last arns] []) in
  let w' := {| script := []; calls := [list_clusters None] |} in
  let s' := session w' []
              (menu_shown "AVAILABLE ECS CLUSTERS" clusters_prompt arns) in
  get_clusters 1 w = (Return arns, w')
  /\ list_clusters_menu str_lower int_of_digits 1 (session w ["1"] [])
     = (Done (Some ("arn:c/web", "web")), s')
  /\ In "arn:c/web" arns
  /\ last_segment "arn:c/web" = Some "web".
Proof.
  intros arns w w' s'.
  assert (Hget : get_clusters 1 w = (Return arns, w')) by reflexivity.
  assert (Hrun : list_clusters_menu str_lower int_of_digits 1
                   (session w ["1"] [])
                 = (Done (Some ("arn:c/web", "web")), s')) by reflexivity.
  split; [exact Hget|]. split; [exact Hrun|].
  exact (proj1 (menus_return_only_listed_entries
                  str_lower int_of_digits arns ["1"] [] "arn:c/web" "web")
               1 w w' s' Hget Hrun).
Defined.
